(** * findmy/http.py: the response wrapper and the session manager

    A shallow embedding of [src/findmy/http.py].  Python integers are [Z],
    [bytes] objects are lists of [Byte.byte], [str] objects are lists of
    Unicode code points, exceptions are the left summand of a result type,
    and the mutable session manager is a state-and-exception monad over an
    explicit store of client sessions. *)

From Stdlib Require Import ZArith NArith List String Ascii Bool Lia.
From Stdlib Require Import Strings.Byte DecimalString.
From Stdlib Require DecimalPos.
Import ListNotations.

Set Warnings "-register-all".

Local Open Scope Z_scope.

(** ** Python values and exceptions *)

Definition bytes := list Byte.byte.

(** A [str] is a sequence of Unicode code points. *)
Definition codepoint := N.
Definition pystr := list codepoint.

(** The objects that the decoders of this module can return.  A float keeps
    the text of its literal; a [dict] keeps its items in insertion order; a
    [datetime] keeps its six fields. *)
Inductive pyobj : Type :=
| PyNone
| PyBool (b : bool)
| PyInt (n : Z)
| PyFloat (literal : string)
| PyStr (s : pystr)
| PyBytes (b : bytes)
| PyList (items : list pyobj)
| PyTuple (items : list pyobj)
| PyDict (items : list (pystr * pyobj))
| PyDatetime (year month day hour minute second : Z).

(** The libraries whose own failures travel through this module unchanged. *)
Inductive library := Plistlib | Aiohttp.

Inductive exn : Type :=
| UnicodeDecodeError
| JSONDecodeError (msg : string)
| RecursionError
| TypeError (msg : string) (data : option pyobj)
| ValueError (msg : string)
| IndexError (msg : string)
| KeyError
| AttributeError (msg : string)
| RuntimeError (msg : string)
| LibraryError (origin : library) (msg : string).

Definition result (A : Type) : Type := (exn + A)%type.
Definition Ok {A : Type} (a : A) : result A := inr a.
Definition Raise {A : Type} (e : exn) : result A := inl e.

Definition rbind {A B : Type} (r : result A) (k : A -> result B) : result B :=
  match r with
  | inl e => inl e
  | inr a => k a
  end.

(** ** Builtins of the language *)

Module Py.

(** [str(n)] for an integer: its decimal numeral, with a leading minus sign
    for a negative number and the single digit 0 for zero.  The interpreter
    converts integers of at most 4300 digits, and raises [ValueError] on
    longer ones; the numeral here is that of every integer. *)
Definition str (n : Z) : string := NilZero.string_of_int (Z.to_int n).

(** [s.startswith(p)] on ASCII text. *)
Definition startswith (s p : string) : bool := String.prefix p s.

(** [data.startswith(p)] on [bytes]. *)
Fixpoint bytes_startswith (data p : bytes) : bool :=
  match p with
  | [] => true
  | c :: p' =>
      match data with
      | [] => false
      | d :: data' => Byte.eqb d c && bytes_startswith data' p'
      end
  end.

(** A bytes literal [b"..."]. *)
Definition b (s : string) : bytes := list_byte_of_string s.

(** A [str] literal of ASCII characters. *)
Definition u (s : string) : pystr := map N_of_ascii (list_ascii_of_string s).

(** [isinstance(o, dict)]. *)
Definition is_dict (o : pyobj) : bool :=
  match o with
  | PyDict _ => true
  | _ => false
  end.

End Py.

(** ** The UTF-8 codec behind [bytes.decode("utf-8")] and [str.encode("utf-8")]

    The strict codec: no overlong forms, no surrogates, nothing above
    U+10FFFF.  Both directions work on the numeric values of the bytes. *)

Module Utf8.

Local Open Scope N_scope.

Definition is_cont (x : N) : bool := (0x80 <=? x) && (x <? 0xC0).

Definition is_surrogate (c : N) : bool := (0xD800 <=? c) && (c <? 0xE000).

Fixpoint decode_N (l : list N) : option pystr :=
  match l with
  | [] => Some []
  | b0 :: l1 =>
      if b0 <? 0x80 then option_map (cons b0) (decode_N l1)
      else if b0 <? 0xC0 then None
      else if b0 <? 0xE0 then
        match l1 with
        | b1 :: l2 =>
            let c := (b0 - 0xC0) * 64 + (b1 - 0x80) in
            if is_cont b1 && (0x80 <=? c)
            then option_map (cons c) (decode_N l2)
            else None
        | _ => None
        end
      else if b0 <? 0xF0 then
        match l1 with
        | b1 :: b2 :: l3 =>
            let c := ((b0 - 0xE0) * 64 + (b1 - 0x80)) * 64 + (b2 - 0x80) in
            if is_cont b1 && is_cont b2 && (0x800 <=? c)
               && negb (is_surrogate c)
            then option_map (cons c) (decode_N l3)
            else None
        | _ => None
        end
      else if b0 <? 0xF8 then
        match l1 with
        | b1 :: b2 :: b3 :: l4 =>
            let c := (((b0 - 0xF0) * 64 + (b1 - 0x80)) * 64
                      + (b2 - 0x80)) * 64 + (b3 - 0x80) in
            if is_cont b1 && is_cont b2 && is_cont b3
               && (0x10000 <=? c) && (c <? 0x110000)
            then option_map (cons c) (decode_N l4)
            else None
        | _ => None
        end
      else None
  end.

(** The code points that a well-formed string holds: up to U+10FFFF and no
    surrogate. *)
Definition scalar (c : codepoint) : bool :=
  (c <? 0x110000) && negb (is_surrogate c).

Definition encode_cp (c : codepoint) : option (list N) :=
  if c <? 0x80 then Some [c]
  else if c <? 0x800 then Some [0xC0 + c / 64; 0x80 + c mod 64]
  else if c <? 0x10000 then
    if is_surrogate c then None
    else Some [0xE0 + c / 64 / 64; 0x80 + (c / 64) mod 64; 0x80 + c mod 64]
  else if c <? 0x110000 then
    Some [0xF0 + c / 64 / 64 / 64; 0x80 + (c / 64 / 64) mod 64;
          0x80 + (c / 64) mod 64; 0x80 + c mod 64]
  else None.

Fixpoint encode_N (s : pystr) : option (list N) :=
  match s with
  | [] => Some []
  | c :: s' =>
      match encode_cp c, encode_N s' with
      | Some l, Some l' => Some (l ++ l')
      | _, _ => None
      end
  end.

Definition byte_of_N (n : N) : Byte.byte :=
  match Byte.of_N n with
  | Some x => x
  | None => Byte.x00
  end.

(** [data.decode("utf-8")]: [None] stands for [UnicodeDecodeError]. *)
Definition decode (data : bytes) : option pystr :=
  decode_N (map Byte.to_N data).

(** [s.encode("utf-8")]: [None] stands for [UnicodeEncodeError]. *)
Definition encode (s : pystr) : option bytes :=
  option_map (map byte_of_N) (encode_N s).

End Utf8.

(** ** The decoder behind [json.loads]

    The recursive-descent decoder of the language's [json] package on a
    [str]: [scanstring], the number pattern, [JSONArray], [JSONObject],
    [scan_once] and [JSONDecoder.decode].  A position is the rest of the
    input; error messages leave the position out.  The loops and the nesting
    are bounded by the length of the input, which they never exhaust: the
    [RecursionError] of the embedding marks an exhausted bound.  The
    interpreter's own limit on the depth of recursion, which a document
    nested about a thousand deep reaches, is not part of the embedding. *)

Module Json.

Local Open Scope N_scope.

(** The outcome of one scanning step: a value and the rest of the input,
    [StopIteration], or an exception. *)
Inductive scan (A : Type) : Type :=
| Scanned (v : A) (rest : pystr)
| Stop
| Fail (e : exn).
Arguments Scanned {A} v rest.
Arguments Stop {A}.
Arguments Fail {A} e.

Definition ch (a : ascii) : N := N_of_ascii a.

Definition quote : N := 34.
Definition backslash : N := 92.

Definition is_ws (c : N) : bool :=
  (c =? 32) || (c =? 9) || (c =? 10) || (c =? 13).

Fixpoint skip_ws (s : pystr) : pystr :=
  match s with
  | c :: r => if is_ws c then skip_ws r else s
  | [] => []
  end.

Definition is_digit (c : N) : bool := (48 <=? c) && (c <=? 57).

Definition hex_digit (c : N) : option N :=
  if is_digit c then Some (c - 48)
  else if (97 <=? c) && (c <=? 102) then Some (c - 87)
  else if (65 <=? c) && (c <=? 70) then Some (c - 55)
  else None.

Definition hex4 (h1 h2 h3 h4 : N) : option N :=
  match hex_digit h1, hex_digit h2, hex_digit h3, hex_digit h4 with
  | Some a, Some b, Some c, Some d => Some (((a * 16 + b) * 16 + c) * 16 + d)
  | _, _, _, _ => None
  end.

(** The table [BACKSLASH]. *)
Definition unescape (e : N) : option N :=
  if e =? quote then Some quote
  else if e =? backslash then Some backslash
  else if e =? ch "/" then Some (ch "/")
  else if e =? ch "b" then Some 8
  else if e =? ch "f" then Some 12
  else if e =? ch "n" then Some 10
  else if e =? ch "r" then Some 13
  else if e =? ch "t" then Some 9
  else None.

Definition unterminated : exn :=
  JSONDecodeError "Unterminated string starting at".
Definition bad_uXXXX : exn := JSONDecodeError "Invalid \uXXXX escape".

(** [scanstring] with [strict=True], entered after the opening quote;
    [acc] holds the characters read so far, last one first.  An escape of
    four hexadecimal digits is refused when the input ends with it, and a
    low surrogate that ends the input is not paired. *)
Fixpoint scanstring (s : pystr) (acc : pystr) : scan pystr :=
  match s with
  | [] => Fail unterminated
  | c :: r =>
      if c =? quote then Scanned (rev acc) r
      else if c =? backslash then
        match r with
        | [] => Fail unterminated
        | e :: r1 =>
            if e =? ch "u" then
              match r1 with
              | [_; _; _; _] => Fail bad_uXXXX
              | h1 :: h2 :: h3 :: h4 :: r2 =>
                  match hex4 h1 h2 h3 h4 with
                  | None => Fail bad_uXXXX
                  | Some uni =>
                      if (0xD800 <=? uni) && (uni <=? 0xDBFF) then
                        match r2 with
                        | b' :: u' :: r3 =>
                            if (b' =? backslash) && (u' =? ch "u") then
                              match r3 with
                              | [_; _; _; _] => scanstring r2 (uni :: acc)
                              | g1 :: g2 :: g3 :: g4 :: r4 =>
                                  match hex4 g1 g2 g3 g4 with
                                  | None => Fail bad_uXXXX
                                  | Some uni2 =>
                                      if (0xDC00 <=? uni2) && (uni2 <=? 0xDFFF)
                                      then scanstring r4
                                             (0x10000 + ((uni - 0xD800) * 1024
                                                         + (uni2 - 0xDC00))
                                              :: acc)
                                      else scanstring r2 (uni :: acc)
                                  end
                              | _ => Fail bad_uXXXX
                              end
                            else scanstring r2 (uni :: acc)
                        | _ => scanstring r2 (uni :: acc)
                        end
                      else scanstring r2 (uni :: acc)
                  end
              | _ => Fail bad_uXXXX
              end
            else
              match unescape e with
              | Some c' => scanstring r1 (c' :: acc)
              | None => Fail (JSONDecodeError "Invalid \escape")
              end
        end
      else if c <? 32 then Fail (JSONDecodeError "Invalid control character at")
      else scanstring r (c :: acc)
  end.

(** The longest run of decimal digits at the head of the input. *)
Fixpoint digits (s : pystr) : pystr * pystr :=
  match s with
  | c :: r => if is_digit c then let (d, r') := digits r in (c :: d, r')
              else ([], s)
  | [] => ([], [])
  end.

Definition int_of_digits (d : pystr) : Z :=
  fold_left (fun a c => (a * 10 + Z.of_N (c - 48))%Z) d 0%Z.

Definition text (s : pystr) : string :=
  string_of_list_ascii (map ascii_of_N s).

(** The integer part of the number pattern, an optional minus sign and then
    either a single 0 or a nonzero digit with more digits: the sign, the
    digits and the rest. *)
Definition match_integer (s : pystr) : option (bool * pystr * pystr) :=
  let (neg, s1) :=
    match s with
    | c :: r => if c =? ch "-" then (true, r) else (false, s)
    | [] => (false, s)
    end in
  match s1 with
  | c :: r =>
      if c =? ch "0" then Some (neg, [c], r)
      else if is_digit c then let (d, r') := digits r in Some (neg, c :: d, r')
      else None
  | [] => None
  end.

(** The optional fraction: a dot and at least one digit. *)
Definition match_frac (s : pystr) : pystr * pystr :=
  match s with
  | c :: r =>
      if c =? ch "." then
        match digits r with
        | ([], _) => ([], s)
        | (d, r') => (c :: d, r')
        end
      else ([], s)
  | [] => ([], s)
  end.

(** The optional exponent: e or E, an optional sign, at least one digit. *)
Definition match_exp (s : pystr) : pystr * pystr :=
  match s with
  | c :: r =>
      if (c =? ch "e") || (c =? ch "E") then
        let (sign, r1) :=
          match r with
          | c1 :: r' => if (c1 =? ch "-") || (c1 =? ch "+") then ([c1], r')
                        else ([], r)
          | [] => ([], r)
          end in
        match digits r1 with
        | ([], _) => ([], s)
        | (d, r') => (c :: sign ++ d, r')
        end
      else ([], s)
  | [] => ([], s)
  end.

Definition match_number (s : pystr) : option (pyobj * pystr) :=
  match match_integer s with
  | None => None
  | Some (neg, d, r) =>
      let (frac, r1) := match_frac r in
      let (exp, r2) := match_exp r1 in
      match frac, exp with
      | [], [] =>
          Some (PyInt (if neg then - int_of_digits d else int_of_digits d)%Z, r2)
      | _, _ =>
          Some (PyFloat (text ((if neg then [ch "-"] else []) ++ d ++ frac ++ exp)),
                r2)
      end
  end.

(** [s[idx:idx + len(w)] == w], giving the rest of the input after [w]. *)
Fixpoint strip_prefix (w s : pystr) : option pystr :=
  match w with
  | [] => Some s
  | a :: w' =>
      match s with
      | c :: r => if c =? a then strip_prefix w' r else None
      | [] => None
      end
  end.

(** [dict(pairs)]: a later item replaces the value of an equal key and
    keeps the place of the first. *)
Fixpoint pystr_eqb (a c : pystr) : bool :=
  match a, c with
  | [], [] => true
  | x :: a', y :: c' => (x =? y) && pystr_eqb a' c'
  | _, _ => false
  end.

Fixpoint dict_set (d : list (pystr * pyobj)) (k : pystr) (v : pyobj)
  : list (pystr * pyobj) :=
  match d with
  | [] => [(k, v)]
  | (k', v') :: d' =>
      if pystr_eqb k' k then (k', v) :: d' else (k', v') :: dict_set d' k v
  end.

Definition dict_of_pairs (pairs : list (pystr * pyobj)) : list (pystr * pyobj) :=
  fold_left (fun d kv => dict_set d (fst kv) (snd kv)) pairs [].

Definition expecting_value : exn := JSONDecodeError "Expecting value".
Definition expecting_comma : exn := JSONDecodeError "Expecting ',' delimiter".
Definition expecting_colon : exn := JSONDecodeError "Expecting ':' delimiter".
Definition expecting_name : exn :=
  JSONDecodeError "Expecting property name enclosed in double quotes".

Section Containers.

(** [scan_once], as [JSONArray] and [JSONObject] receive it. *)
Variable scan_once : pystr -> scan pyobj.

(** The loop of [JSONArray]; [n] bounds the number of iterations and
    [acc] holds the values read so far, last one first. *)
Fixpoint array_loop (n : nat) (s : pystr) (acc : list pyobj) : scan pyobj :=
  match n with
  | O => Fail RecursionError
  | S n' =>
      match scan_once s with
      | Stop => Fail expecting_value
      | Fail e => Fail e
      | Scanned v r =>
          match skip_ws r with
          | c :: r' =>
              if c =? ch "]" then Scanned (PyList (rev (v :: acc))) r'
              else if c =? ch "," then array_loop n' (skip_ws r') (v :: acc)
              else Fail expecting_comma
          | [] => Fail expecting_comma
          end
      end
  end.

(** [JSONArray], entered after the opening bracket. *)
Definition JSONArray (s : pystr) : scan pyobj :=
  match skip_ws s with
  | c :: r =>
      if c =? ch "]" then Scanned (PyList []) r
      else array_loop (S (List.length s)) (c :: r) []
  | [] => array_loop (S (List.length s)) [] []
  end.

(** The loop of [JSONObject], entered after the opening quote of a key. *)
Fixpoint object_loop (n : nat) (s : pystr) (pairs : list (pystr * pyobj))
  : scan pyobj :=
  match n with
  | O => Fail RecursionError
  | S n' =>
      match scanstring s [] with
      | Stop => Fail expecting_value
      | Fail e => Fail e
      | Scanned key r =>
          match skip_ws r with
          | c :: r1 =>
              if c =? ch ":" then
                match scan_once (skip_ws r1) with
                | Stop => Fail expecting_value
                | Fail e => Fail e
                | Scanned value r2 =>
                    match skip_ws r2 with
                    | c2 :: r3 =>
                        if c2 =? ch "}" then
                          Scanned (PyDict (dict_of_pairs
                                             (rev ((key, value) :: pairs)))) r3
                        else if c2 =? ch "," then
                          match skip_ws r3 with
                          | c3 :: r4 =>
                              if c3 =? quote
                              then object_loop n' r4 ((key, value) :: pairs)
                              else Fail expecting_name
                          | [] => Fail expecting_name
                          end
                        else Fail expecting_comma
                    | [] => Fail expecting_comma
                    end
                end
              else Fail expecting_colon
          | [] => Fail expecting_colon
          end
      end
  end.

(** [JSONObject], entered after the opening brace. *)
Definition JSONObject (s : pystr) : scan pyobj :=
  match skip_ws s with
  | c :: r =>
      if c =? quote then object_loop (S (List.length s)) r []
      else if c =? ch "}" then Scanned (PyDict []) r
      else Fail expecting_name
  | [] => Fail expecting_name
  end.

End Containers.

(** The integer literal at the head of the input has more digits than the
    interpreter converts (4300 by default). *)
Definition int_too_long (s : pystr) : bool :=
  match match_integer s with
  | Some (_, d, r) =>
      match match_frac r with
      | ([], r1) =>
          match match_exp r1 with
          | ([], _) => (4300 <? List.length d)%nat
          | _ => false
          end
      | _ => false
      end
  | None => false
  end.

Definition int_limit : exn :=
  ValueError "Exceeds the limit (4300 digits) for integer string conversion".

Definition constant (w : string) (v : pyobj) (s : pystr) : option (pyobj * pystr) :=
  option_map (pair v) (strip_prefix (Py.u w) s).

Definition first_some {A : Type} (l : list (option A)) : option A :=
  fold_right (fun o acc => match o with Some a => Some a | None => acc end)
             None l.

(** [_scan_once]; [depth] bounds the nesting of arrays and objects. *)
Fixpoint scan_once (depth : nat) (s : pystr) : scan pyobj :=
  match depth with
  | O => Fail RecursionError
  | S d =>
      match s with
      | [] => Stop
      | c :: r =>
          if c =? quote then
            match scanstring r [] with
            | Scanned v r' => Scanned (PyStr v) r'
            | Stop => Stop
            | Fail e => Fail e
            end
          else if c =? ch "{" then JSONObject (scan_once d) r
          else if c =? ch "[" then JSONArray (scan_once d) r
          else if int_too_long s then Fail int_limit
          else
            match first_some [constant "null" PyNone s;
                              constant "true" (PyBool true) s;
                              constant "false" (PyBool false) s;
                              match_number s;
                              constant "NaN" (PyFloat "NaN") s;
                              constant "Infinity" (PyFloat "Infinity") s;
                              constant "-Infinity" (PyFloat "-Infinity") s] with
            | Some (v, r') => Scanned v r'
            | None => Stop
            end
      end
  end.

(** [JSONDecoder.decode]. *)
Definition decode (s : pystr) : result pyobj :=
  match scan_once (S (List.length s)) (skip_ws s) with
  | Stop => Raise expecting_value
  | Fail e => Raise e
  | Scanned obj r =>
      match skip_ws r with
      | [] => Ok obj
      | _ :: _ => Raise (JSONDecodeError "Extra data")
      end
  end.

(** [json.loads] on a [str]. *)
Definition loads (s : pystr) : result pyobj :=
  match s with
  | 0xFEFF :: _ =>
      Raise (JSONDecodeError "Unexpected UTF-8 BOM (decode using utf-8-sig)")
  | _ => decode s
  end.

(** A scanning step is sound on [s] when it did not run out of fuel and
    what it leaves is shorter than [s]. *)
Definition progress {A : Type} (res : scan A) (s : pystr) : Prop :=
  res <> Fail RecursionError
  /\ forall v r, res = Scanned v r -> (List.length r < List.length s)%nat.

(** The exceptions of the decoder itself. *)
Definition decoder_error (e : exn) : bool :=
  match e with
  | JSONDecodeError _ | RecursionError | ValueError _ => true
  | _ => false
  end.

(** A scanning step fails with the decoder's exceptions only. *)
Definition fails_as_decoder {A : Type} (res : scan A) : Prop :=
  forall e, res = Fail e -> decoder_error e = true.

(** A scanning step yields values of one shape only. *)
Definition yields {A : Type} (shape : A -> bool) (res : scan A) : Prop :=
  forall v r, res = Scanned v r -> shape v = true.

End Json.


(** ** A reader for the core of the XML property-list format

    [plistlib.loads] belongs to the language's library, and the module is
    verified against an arbitrary loader (section [Http] below).  The reader
    here instantiates the loader in the closed examples.  It follows the
    library's XML parser, [_PlistParser]: the handlers of the elements
    [dict], [key], [array], [true], [false], [string], [integer] and [date]
    run over the events of the XML reader, with the stack of open
    containers, the pending key and the character data of the library.

    The XML reader itself is cut down to the core: the declaration and the
    document type of the fixed header, elements without attributes (the
    version attribute apart), and text without entities.  A document with
    anything else is reported as a failure of the loader, [outside]. *)

Module PlistCore.

Definition not_well_formed : exn := LibraryError Plistlib "not well-formed".
Definition invalid_file : exn := LibraryError Plistlib "Invalid file".
Definition outside : exn := LibraryError Plistlib "outside the core format".

(** *** The events of the XML reader *)

Inductive token : Type :=
| Declaration
| Doctype
| Open (name : string)
| Close (name : string)
| Empty (name : string)
| Text (t : pystr)
| Bad (e : exn).

Definition lt_sign : Byte.byte := Byte.x3c.
Definition gt_sign : Byte.byte := Byte.x3e.
Definition slash : Byte.byte := Byte.x2f.

Fixpoint bytes_eqb (a c : bytes) : bool :=
  match a, c with
  | [], [] => true
  | x :: a', y :: c' => Byte.eqb x y && bytes_eqb a' c'
  | _, _ => false
  end.

(** The bytes before the first [stop] and the bytes after it. *)
Fixpoint until (stop : Byte.byte) (s : bytes) : option (bytes * bytes) :=
  match s with
  | [] => None
  | c :: r =>
      if Byte.eqb c stop then Some ([], r)
      else match until stop r with
           | Some (a, r') => Some (c :: a, r')
           | None => None
           end
  end.

(** The text before the next tag. *)
Fixpoint chars (s : bytes) : bytes * bytes :=
  match s with
  | [] => ([], [])
  | c :: r =>
      if Byte.eqb c lt_sign then ([], s)
      else let (a, r') := chars r in (c :: a, r')
  end.

Definition is_letter (c : Byte.byte) : bool :=
  let n := Byte.to_N c in
  ((65 <=? n) && (n <=? 90) || (97 <=? n) && (n <=? 122))%N.

(** The letters at the head of a tag and what follows them. *)
Fixpoint letters (s : bytes) : bytes * bytes :=
  match s with
  | c :: r => if is_letter c then let (a, r') := letters r in (c :: a, r')
              else ([], s)
  | [] => ([], [])
  end.

Definition declaration : bytes := Py.b "?xml version='1.0' encoding='UTF-8'?".

Definition doctype : bytes :=
  Py.b "!DOCTYPE plist PUBLIC '-//Apple//DTD PLIST 1.0//EN' 'http://www.apple.com/DTDs/PropertyList-1.0.dtd'".

Definition version_attr : bytes := Py.b " version='1.0'".

(** The element name of a tag that is a name, or a name and the version
    attribute. *)
Definition element (tag : bytes) : option string :=
  match letters tag with
  | ([], _) => None
  | (name, r) =>
      if bytes_eqb r [] || bytes_eqb r version_attr
      then Some (string_of_list_byte name)
      else None
  end.

Definition classify (tag : bytes) : token :=
  if bytes_eqb tag declaration then Declaration
  else if bytes_eqb tag doctype then Doctype
  else
    match tag with
    | [] => Bad not_well_formed
    | c :: r =>
        if Byte.eqb c slash then
          match letters r with
          | (c' :: name, []) => Close (string_of_list_byte (c' :: name))
          | _ => Bad outside
          end
        else
          match rev tag with
          | l :: body =>
              if Byte.eqb l slash then
                match element (rev body) with
                | Some name => Empty name
                | None => Bad outside
                end
              else
                match element tag with
                | Some name => Open name
                | None => Bad outside
                end
          | [] => Bad not_well_formed
          end
    end.

(** The character data of a run of bytes. *)
Definition text_of (t : bytes) : result pystr :=
  if existsb (fun c => Byte.eqb c Byte.x26 || Byte.eqb c Byte.x5d
                       || Byte.eqb c Byte.x0d) t
  then Raise outside
  else if existsb (fun c => (Byte.to_N c <? 32)%N
                            && negb (Byte.eqb c Byte.x09 || Byte.eqb c Byte.x0a)) t
  then Raise not_well_formed
  else
    match Utf8.decode t with
    | None => Raise not_well_formed
    | Some s =>
        if existsb (fun c => (c =? 0xFFFE)%N || (c =? 0xFFFF)%N) s
        then Raise not_well_formed
        else Ok s
    end.

(** The events of a document, up to the first that cannot be read; [n]
    bounds the number of events. *)
Fixpoint tokens (n : nat) (s : bytes) : list token :=
  match n with
  | O => [Bad outside]
  | S n' =>
      match s with
      | [] => []
      | c :: r =>
          if Byte.eqb c lt_sign then
            match until gt_sign r with
            | None => [Bad not_well_formed]
            | Some (tag, r') =>
                match classify tag with
                | Bad e => [Bad e]
                | t => t :: tokens n' r'
                end
            end
          else
            let (t, r') := chars s in
            match text_of t with
            | inl e => [Bad e]
            | inr str => Text str :: tokens n' r'
            end
      end
  end.

(** *** The state of [_PlistParser] *)

(** Where an open container goes once it is complete: it is the root, the
    value of a key of its parent, or the next item of its parent. *)
Inductive slot : Type :=
| AtRoot
| AtKey (k : pystr)
| AtEnd.

Inductive frame : Type :=
| DictFrame (s : slot) (items : list (pystr * pyobj))
| ListFrame (s : slot) (items : list pyobj).

Record parser : Type := mkParser {
  stack : list frame;
  current_key : option pystr;
  root : pyobj;
  data : pystr
}.

Definition unexpected_element : exn := ValueError "unexpected element at line".
Definition unexpected_key : exn := ValueError "unexpected key at line".
Definition missing_value : exn := ValueError "missing value for key".
Definition empty_stack : exn := IndexError "list index out of range".

(** The truth value of [self.current_key]. *)
Definition key_pending (p : parser) : bool :=
  match current_key p with
  | Some (_ :: _) => true
  | _ => false
  end.

(** [add_object] *)
Definition add_object (value : pyobj) (p : parser) : result parser :=
  match current_key p with
  | Some k =>
      match stack p with
      | [] => Raise empty_stack
      | DictFrame s items :: rest =>
          Ok (mkParser (DictFrame s (Json.dict_set items k value) :: rest)
                       None (root p) (data p))
      | ListFrame _ _ :: _ => Raise unexpected_element
      end
  | None =>
      match stack p with
      | [] => Ok (mkParser [] None value (data p))
      | ListFrame s items :: rest =>
          Ok (mkParser (ListFrame s (items ++ [value]) :: rest)
                       None (root p) (data p))
      | DictFrame _ _ :: _ => Raise unexpected_element
      end
  end.

(** [begin_dict] and [begin_array]: the new container is added to its
    parent and pushed; here it is pushed with the place it was added at. *)
Definition begin_container (mk : slot -> frame) (p : parser) : result parser :=
  match current_key p with
  | Some k =>
      match stack p with
      | [] => Raise empty_stack
      | DictFrame _ _ :: _ =>
          Ok (mkParser (mk (AtKey k) :: stack p) None (root p) (data p))
      | ListFrame _ _ :: _ => Raise unexpected_element
      end
  | None =>
      match stack p with
      | [] => Ok (mkParser [mk AtRoot] None (root p) (data p))
      | ListFrame _ _ :: _ =>
          Ok (mkParser (mk AtEnd :: stack p) None (root p) (data p))
      | DictFrame _ _ :: _ => Raise unexpected_element
      end
  end.

(** [self.stack.pop()]: the container that is complete takes its place. *)
Definition pop (p : parser) : result parser :=
  match stack p with
  | [] => Raise (IndexError "pop from empty list")
  | top :: rest =>
      let (s, value) :=
        match top with
        | DictFrame s items => (s, PyDict items)
        | ListFrame s items => (s, PyList items)
        end in
      match s, rest with
      | AtRoot, _ => Ok (mkParser rest (current_key p) value (data p))
      | AtKey k, DictFrame s' items :: rest' =>
          Ok (mkParser (DictFrame s' (Json.dict_set items k value) :: rest')
                       (current_key p) (root p) (data p))
      | AtEnd, ListFrame s' items :: rest' =>
          Ok (mkParser (ListFrame s' (items ++ [value]) :: rest')
                       (current_key p) (root p) (data p))
      | _, _ => Raise outside
      end
  end.

(** [get_data], the state after it. *)
Definition taken (p : parser) : parser :=
  mkParser (stack p) (current_key p) (root p) [].

(** [int(raw)] on the text of an [integer] element. *)
Definition int_of (raw : pystr) : result Z :=
  match raw with
  | 48%N :: 120%N :: _ | 48%N :: 88%N :: _ => Raise outside
  | _ =>
      if existsb (fun c => (c <=? 32)%N || (c =? 95)%N || (128 <=? c)%N) raw
      then Raise outside
      else
        let (neg, d) :=
          match raw with
          | 45%N :: d => (true, d)
          | 43%N :: d => (false, d)
          | _ => (false, raw)
          end in
        match d with
        | [] => Raise (ValueError "invalid literal for int() with base 10")
        | _ :: _ =>
            if forallb Json.is_digit d then
              if (4300 <? List.length d)%nat
              then Raise (ValueError "Exceeds the limit (4300 digits) for integer string conversion")
              else Ok (if neg then - Json.int_of_digits d else Json.int_of_digits d)
            else Raise (ValueError "invalid literal for int() with base 10")
        end
  end.

(** *** Dates: [_date_from_string] and [datetime.datetime] *)

(** Exactly [k] decimal digits at the head of the text. *)
Fixpoint number (k : nat) (s : pystr) (acc : Z) : option (Z * pystr) :=
  match k with
  | O => Some (acc, s)
  | S k' =>
      match s with
      | c :: r =>
          if Json.is_digit c then number k' r (acc * 10 + Z.of_N (c - 48))
          else None
      | [] => None
      end
  end.

(** The fields after the year, each behind its separator, as far as they
    go. *)
Fixpoint date_fields (seps : list N) (s : pystr) : list Z * pystr :=
  match seps with
  | [] => ([], s)
  | sep :: seps' =>
      match s with
      | c :: r =>
          if (c =? sep)%N then
            match number 2 r 0 with
            | Some (v, r') =>
                let (l, r'') := date_fields seps' r' in (v :: l, r'')
            | None => ([], s)
            end
          else ([], s)
      | [] => ([], s)
      end
  end.

(** [_dateParser.match(s)]: the fields that matched, the year first. *)
Definition date_match (s : pystr) : option (list Z) :=
  match number 4 s 0 with
  | Some (year, r) =>
      let (l, r') := date_fields [45; 45; 84; 58; 58]%N r in
      match r' with
      | 90%N :: _ => Some (year :: l)
      | _ => None
      end
  | None => None
  end.

Definition is_leap (y : Z) : bool :=
  (y mod 4 =? 0) && (negb (y mod 100 =? 0) || (y mod 400 =? 0)).

Definition days_in_month (y m : Z) : Z :=
  if m =? 2 then (if is_leap y then 29 else 28)
  else if (m =? 4) || (m =? 6) || (m =? 9) || (m =? 11) then 30
  else 31.

(** [datetime.datetime(year, month, day, hour, minute, second)] *)
Definition datetime (y m d h mi s : Z) : result pyobj :=
  if negb ((1 <=? y) && (y <=? 9999))
  then Raise (ValueError "year is out of range")
  else if negb ((1 <=? m) && (m <=? 12))
  then Raise (ValueError "month must be in 1..12")
  else if negb ((1 <=? d) && (d <=? days_in_month y m))
  then Raise (ValueError "day is out of range for month")
  else if negb ((0 <=? h) && (h <=? 23))
  then Raise (ValueError "hour must be in 0..23")
  else if negb ((0 <=? mi) && (mi <=? 59))
  then Raise (ValueError "minute must be in 0..59")
  else if negb ((0 <=? s) && (s <=? 59))
  then Raise (ValueError "second must be in 0..59")
  else Ok (PyDatetime y m d h mi s).

Definition date_of (s : pystr) : result pyobj :=
  match date_match s with
  | None =>
      Raise (AttributeError "'NoneType' object has no attribute 'groupdict'")
  | Some [] => Raise outside
  | Some [_] =>
      Raise (TypeError "function missing required argument 'month' (pos 2)" None)
  | Some [_; _] =>
      Raise (TypeError "function missing required argument 'day' (pos 3)" None)
  | Some [y; m; d] => datetime y m d 0 0 0
  | Some [y; m; d; h] => datetime y m d h 0 0
  | Some [y; m; d; h; mi] => datetime y m d h mi 0
  | Some (y :: m :: d :: h :: mi :: s :: _) => datetime y m d h mi s
  end.

(** *** The handlers *)

(** [handle_begin_element] *)
Definition handle_begin_element (name : string) (p : parser) : result parser :=
  let p := taken p in
  if String.eqb name "dict" then begin_container (fun s => DictFrame s []) p
  else if String.eqb name "array" then begin_container (fun s => ListFrame s []) p
  else Ok p.

(** [handle_end_element] *)
Definition handle_end_element (name : string) (p : parser) : result parser :=
  if String.eqb name "dict" then
    if key_pending p then Raise missing_value else pop p
  else if String.eqb name "key" then
    if key_pending p then Raise unexpected_key
    else
      match stack p with
      | [] => Raise empty_stack
      | DictFrame _ _ :: _ =>
          Ok (mkParser (stack p) (Some (data p)) (root p) [])
      | ListFrame _ _ :: _ => Raise unexpected_key
      end
  else if String.eqb name "array" then pop p
  else if String.eqb name "true" then add_object (PyBool true) p
  else if String.eqb name "false" then add_object (PyBool false) p
  else if String.eqb name "integer" then
    rbind (int_of (data p)) (fun z => add_object (PyInt z) (taken p))
  else if String.eqb name "string" then add_object (PyStr (data p)) (taken p)
  else if String.eqb name "date" then
    rbind (date_of (data p)) (fun d => add_object d (taken p))
  else if String.eqb name "real" || String.eqb name "data" then Raise outside
  else Ok p.

(** [handle_data] *)
Definition handle_data (s : pystr) (p : parser) : parser :=
  mkParser (stack p) (current_key p) (root p) (data p ++ s).

(** *** The XML reader driving the handlers *)

Record reader : Type := mkReader {
  opened : list string;
  started : bool;
  doctype_seen : bool;
  at_start : bool;
  handlers : parser
}.

Definition is_blank (s : pystr) : bool :=
  forallb (fun c => (c =? 32)%N || (c =? 9)%N || (c =? 10)%N) s.

Definition with_handlers (rd : reader) (opened' : list string)
    (r : result parser) : result reader :=
  rbind r (fun p => Ok (mkReader opened' true (doctype_seen rd) false p)).

Definition event (t : token) (rd : reader) : result reader :=
  match t with
  | Bad e => Raise e
  | Declaration =>
      if at_start rd
      then Ok (mkReader (opened rd) (started rd) (doctype_seen rd) false
                        (handlers rd))
      else Raise not_well_formed
  | Doctype =>
      if started rd || doctype_seen rd then Raise not_well_formed
      else Ok (mkReader (opened rd) false true false (handlers rd))
  | Text s =>
      match opened rd with
      | [] =>
          if is_blank s
          then Ok (mkReader [] (started rd) (doctype_seen rd) false
                            (handlers rd))
          else Raise not_well_formed
      | _ :: _ =>
          Ok (mkReader (opened rd) (started rd) (doctype_seen rd) false
                       (handle_data s (handlers rd)))
      end
  | Open name =>
      match opened rd, started rd with
      | [], true => Raise not_well_formed
      | _, _ =>
          with_handlers rd (name :: opened rd)
            (handle_begin_element name (handlers rd))
      end
  | Empty name =>
      match opened rd, started rd with
      | [], true => Raise not_well_formed
      | _, _ =>
          with_handlers rd (opened rd)
            (rbind (handle_begin_element name (handlers rd))
                   (handle_end_element name))
      end
  | Close name =>
      match opened rd with
      | top :: rest =>
          if String.eqb top name
          then with_handlers rd rest (handle_end_element name (handlers rd))
          else Raise not_well_formed
      | [] => Raise not_well_formed
      end
  end.

Fixpoint events (ts : list token) (rd : reader) : result reader :=
  match ts with
  | [] => Ok rd
  | t :: ts' => rbind (event t rd) (events ts')
  end.

Definition bom_or_binary (data : bytes) : bool :=
  Py.bytes_startswith data (Py.b "bplist00")
  || Py.bytes_startswith data [Byte.xef; Byte.xbb; Byte.xbf]
  || Py.bytes_startswith data [Byte.xfe; Byte.xff]
  || Py.bytes_startswith data [Byte.xff; Byte.xfe].

(** [plistlib.loads] on a document of the core. *)
Definition loads (data : bytes) : result pyobj :=
  if bom_or_binary data then Raise outside
  else if negb (Py.bytes_startswith data (Py.b "<?xml")
                || Py.bytes_startswith data (Py.b "<plist"))
  then Raise invalid_file
  else
    rbind (events (tokens (S (List.length data)) data)
                  (mkReader [] false false true (mkParser [] None PyNone [])))
          (fun rd =>
             match opened rd, started rd with
             | [], true => Ok (root (handlers rd))
             | _, _ => Raise not_well_formed
             end).

End PlistCore.

(** ** class HttpResponse *)

Record HttpResponse : Type := mkHttpResponse {
  _status_code : Z;
  _content : bytes
}.

Definition status_code (self : HttpResponse) : Z := _status_code self.

Definition ok (self : HttpResponse) : bool :=
  Py.startswith (Py.str (_status_code self)) "2".

Definition text (self : HttpResponse) : result pystr :=
  match Utf8.decode (_content self) with
  | Some s => Ok s
  | None => Raise UnicodeDecodeError
  end.

Definition json (self : HttpResponse) : result pyobj :=
  rbind (text self) Json.loads.

(** The white space of JSON, as bytes. *)
Definition is_ws_byte (x : Byte.byte) : bool := Json.is_ws (Byte.to_N x).

(** ** The objects of the HTTP client library *)

Record ClientTimeout : Type := mkClientTimeout { total : Z }.

Record ClientSession : Type := mkClientSession {
  timeout : ClientTimeout;
  closed : bool
}.

(** [aiohttp.BasicAuth], a named tuple of the login, the password and the
    encoding. *)
Record BasicAuth : Type := mkBasicAuth {
  login : pyobj;
  password : pyobj;
  encoding : pystr
}.

(** The keyword arguments [**kwargs], by name. *)
Definition kwargs_t := list (string * pyobj).

(** One call of [ClientSession.request]: the session it is made on and the
    arguments it receives. *)
Record Call : Type := mkCall {
  call_session : nat;
  call_method : pystr;
  call_url : pystr;
  call_auth : option BasicAuth;
  call_ssl : bool;
  call_kwargs : kwargs_t
}.

(** What the context manager binds to [r]: the status and the outcome of
    [await r.content.read()]. *)
Record ClientResponse : Type := mkClientResponse {
  status : Z;
  content_read : result bytes
}.

(** The store of session objects, the calls that reached the transport, and
    the field [self._session], a reference into the store. *)
Record State : Type := mkState {
  heap : list ClientSession;
  log : list Call;
  _session : option nat
}.

(** State and exceptions: an exception keeps the state reached so far. *)
Definition M (A : Type) : Type := State -> result A * State.

Definition ret {A : Type} (a : A) : M A := fun st => (Ok a, st).
Definition raise {A : Type} (e : exn) : M A := fun st => (Raise e, st).
Definition lift {A : Type} (r : result A) : M A := fun st => (r, st).
Definition bind {A B : Type} (m : M A) (k : A -> M B) : M B :=
  fun st =>
    match m st with
    | (inl e, st') => (inl e, st')
    | (inr a, st') => k a st'
    end.

Declare Scope monad_scope.
Delimit Scope monad_scope with monad.
Notation "x <- m ;; k" := (bind m (fun x => k))
  (at level 61, m at next level, right associativity) : monad_scope.
Notation "m ;; k" := (bind m (fun _ => k))
  (at level 61, right associativity) : monad_scope.

Definition has_key (k : string) (kw : kwargs_t) : bool :=
  existsb (fun p => String.eqb (fst p) k) kw.

Fixpoint lookup (k : string) (kw : kwargs_t) : option pyobj :=
  match kw with
  | [] => None
  | (k', v) :: kw' => if String.eqb k' k then Some v else lookup k kw'
  end.

Definition remove (k : string) (kw : kwargs_t) : kwargs_t :=
  filter (fun p => negb (String.eqb (fst p) k)) kw.

(** [o[i]] for a constant index [i >= 0]. *)
Definition getitem (o : pyobj) (i : nat) : result pyobj :=
  match o with
  | PyTuple l =>
      match nth_error l i with
      | Some x => Ok x
      | None => Raise (IndexError "tuple index out of range")
      end
  | PyList l =>
      match nth_error l i with
      | Some x => Ok x
      | None => Raise (IndexError "list index out of range")
      end
  | PyStr s =>
      match nth_error s i with
      | Some c => Ok (PyStr [c])
      | None => Raise (IndexError "string index out of range")
      end
  | PyBytes b =>
      match nth_error b i with
      | Some x => Ok (PyInt (Z.of_N (Byte.to_N x)))
      | None => Raise (IndexError "index out of range")
      end
  | PyDict _ => Raise KeyError
  | _ => Raise (TypeError "object is not subscriptable" None)
  end.

Definition multiple_values (name : string) : exn :=
  TypeError ("got multiple values for keyword argument " ++ name) None.

Definition set_closed (h : nat) (hp : list ClientSession) : list ClientSession :=
  match nth_error hp h with
  | Some cs => firstn h hp ++ mkClientSession (timeout cs) true :: skipn (S h) hp
  | None => hp
  end.

Section Http.

(** [plistlib.loads] on [bytes]: the decoded object, or the exception the
    loader raises, of whatever class. *)
Variable plistlib_loads : bytes -> result pyobj.

(** The transport: what a call of [ClientSession.request] on an open
    session yields, given the calls made before it. *)
Variable network : list Call -> Call -> result ClientResponse.

Local Open Scope monad_scope.

Definition plist_header : bytes :=
  Py.b "<?xml version='1.0' encoding='UTF-8'?>"
  ++ Py.b "<!DOCTYPE plist PUBLIC '-//Apple//DTD PLIST 1.0//EN' 'http://www.apple.com/DTDs/PropertyList-1.0.dtd'>".

Definition loads_plist (data : bytes) : result pyobj :=
  plistlib_loads data.

Definition decode_plist (data : bytes) : result pyobj :=
  let data :=
    if negb (Py.bytes_startswith data (Py.b "<?xml"))
    then plist_header ++ data
    else data in
  loads_plist data.

Definition plist (self : HttpResponse) : result pyobj :=
  rbind (decode_plist (_content self)) (fun data =>
    if negb (Py.is_dict data)
    then Raise (TypeError "Unknown Plist-encoded data type: {data}. This is a bug, please report it."
                          (Some data))
    else Ok data).

(** *** class HttpSession *)

(** [__init__] *)
Definition init : State := mkState [] [] None.

Definition _ensure_session : M unit := fun st =>
  match _session st with
  | None =>
      (Ok tt,
       mkState (heap st ++ [mkClientSession (mkClientTimeout 5) false])
               (log st)
               (Some (List.length (heap st))))
  | Some _ => (Ok tt, st)
  end.

Definition close : M unit := fun st =>
  match _session st with
  | Some h => (Ok tt, mkState (set_closed h (heap st)) (log st) None)
  | None => (Ok tt, st)
  end.

(** The running event loop, as [__del__] reaches it: whether it is closed,
    and the callbacks it holds, in the order of their scheduling. *)
Inductive callback : Type :=
| CreateTaskClose.

Record Loop : Type := mkLoop { loop_closed : bool; ready : list callback }.

(** [asyncio.get_running_loop()] *)
Definition get_running_loop (running : option Loop) : result Loop :=
  match running with
  | Some loop => Ok loop
  | None => Raise (RuntimeError "no running event loop")
  end.

(** [loop.call_soon_threadsafe(callback, *args)] *)
Definition call_soon_threadsafe (loop : Loop) (cb : callback) : result Loop :=
  if loop_closed loop then Raise (RuntimeError "Event loop is closed")
  else Ok (mkLoop (loop_closed loop) (ready loop ++ [cb])).

(** [__del__]: the outcome and the running loop afterwards. *)
Definition __del__ (running : option Loop) (st : State)
  : result unit * option Loop :=
  match _session st with
  | None => (Ok tt, running)
  | Some _ =>
      match rbind (get_running_loop running)
                  (fun loop => call_soon_threadsafe loop CreateTaskClose) with
      | inr loop => (Ok tt, Some loop)
      | inl (RuntimeError _) => (Ok tt, running)
      | inl e => (Raise e, running)
      end
  end.


(** [self._session.request(method, url, auth=..., ssl=..., **kwargs)] *)
Definition ClientSession_request (method url : pystr) (auth : option BasicAuth)
    (ssl : bool) (kwargs : kwargs_t) : M ClientResponse := fun st =>
  match _session st with
  | None =>
      (Raise (AttributeError "'NoneType' object has no attribute 'request'"), st)
  | Some h =>
      if has_key "auth" kwargs then (Raise (multiple_values "'auth'"), st)
      else if has_key "ssl" kwargs then (Raise (multiple_values "'ssl'"), st)
      else
        match nth_error (heap st) h with
        | Some cs =>
            if closed cs then (Raise (RuntimeError "Session is closed"), st)
            else
              let c := mkCall h method url auth ssl kwargs in
              (network (log st) c, mkState (heap st) (log st ++ [c]) (_session st))
        | None => (Raise (RuntimeError "Session is closed"), st)
        end
  end.

(** [":" in login], for a [login] that is not [None]. *)
Definition contains_colon (o : pyobj) : result bool :=
  let is_colon (x : pyobj) : bool :=
    match x with
    | PyStr s => Json.pystr_eqb s (Py.u ":")
    | _ => false
    end in
  match o with
  | PyStr s => Ok (existsb (N.eqb 58) s)
  | PyList l | PyTuple l => Ok (existsb is_colon l)
  | PyDict d => Ok (existsb (fun kv => Json.pystr_eqb (fst kv) (Py.u ":")) d)
  | PyBytes _ =>
      Raise (TypeError "a bytes-like object is required, not 'str'" None)
  | _ => Raise (TypeError "argument is not iterable" None)
  end.

(** [BasicAuth(login, password)]: the constructor refuses [None] as login
    or password and a colon in the login; the encoding is the default.  The
    library's message writes the colon between quotation marks. *)
Definition BasicAuth_new (login password : pyobj) : result BasicAuth :=
  match login, password with
  | PyNone, _ => Raise (ValueError "None is not allowed as login value")
  | _, PyNone => Raise (ValueError "None is not allowed as password value")
  | _, _ =>
      rbind (contains_colon login) (fun colon =>
        if colon
        then Raise (ValueError "A colon is not allowed in login (RFC 1945#section-11.1)")
        else Ok (mkBasicAuth login password (Py.u "latin1")))
  end.

(** The translation of [auth] at the head of [request]. *)
Definition basic_auth_of (auth : pyobj) : result (option BasicAuth) :=
  match auth with
  | PyNone => Ok None
  | _ =>
      rbind (getitem auth 0) (fun a0 =>
      rbind (getitem auth 1) (fun a1 =>
      rbind (BasicAuth_new a0 a1) (fun basic_auth =>
      Ok (Some basic_auth))))
  end.

Definition request (method url : pystr) (auth : pyobj) (kwargs : kwargs_t)
  : M HttpResponse :=
  _ensure_session ;;
  basic_auth <- lift (basic_auth_of auth) ;;
  r <- ClientSession_request method url basic_auth false kwargs ;;
  content <- lift (content_read r) ;;
  ret (mkHttpResponse (status r) content).

(** The call [self.request(method, url, **kwargs)]: the keywords are bound
    to the parameters of [request]. *)
Definition call_request (method url : pystr) (kwargs : kwargs_t) : M HttpResponse :=
  if has_key "self" kwargs then raise (multiple_values "'self'")
  else if has_key "method" kwargs then raise (multiple_values "'method'")
  else if has_key "url" kwargs then raise (multiple_values "'url'")
  else
    request method url
            (match lookup "auth" kwargs with Some a => a | None => PyNone end)
            (remove "auth" kwargs).

Definition get (url : pystr) (kwargs : kwargs_t) : M HttpResponse :=
  call_request (Py.u "GET") url kwargs.

Definition post (url : pystr) (kwargs : kwargs_t) : M HttpResponse :=
  call_request (Py.u "POST") url kwargs.

(** *** The session manager as a state machine *)

Inductive session_state : Type := NoSession | HasSession.

Definition state_of (st : State) : session_state :=
  match _session st with
  | None => NoSession
  | Some _ => HasSession
  end.

(** The number of session objects of the store that are not closed. *)
Definition live (hp : list ClientSession) : nat :=
  List.length (filter (fun cs => negb (closed cs)) hp).

(** The calls a client can make on the manager, one after the other. *)
Inductive op : Type :=
| OpEnsure
| OpClose
| OpRequest (method url : pystr) (auth : pyobj) (kwargs : kwargs_t)
| OpGet (url : pystr) (kwargs : kwargs_t)
| OpPost (url : pystr) (kwargs : kwargs_t).

Definition step (o : op) (st : State) : State :=
  match o with
  | OpEnsure => snd (_ensure_session st)
  | OpClose => snd (close st)
  | OpRequest method url auth kwargs => snd (request method url auth kwargs st)
  | OpGet url kwargs => snd (get url kwargs st)
  | OpPost url kwargs => snd (post url kwargs st)
  end.

Definition run (ops : list op) (st : State) : State :=
  fold_left (fun st o => step o st) ops st.

(** The number of [close] calls among [ops]. *)
Fixpoint closes (ops : list op) : nat :=
  match ops with
  | [] => O
  | OpClose :: ops' => S (closes ops')
  | _ :: ops' => closes ops'
  end.

(** The sessions still to create before a call can be made: one when the
    manager holds none. *)
Definition pending (st : State) : nat :=
  match _session st with
  | Some _ => 0
  | None => 1
  end.

(** The handle held by the manager, if any, is the one open session. *)
Definition consistent (st : State) : Prop :=
  match _session st with
  | None => live (heap st) = O
  | Some h =>
      live (heap st) = 1%nat
      /\ exists cs, nth_error (heap st) h = Some cs /\ closed cs = false
  end.

(** What [request] returns once the transport has answered. *)
Definition wrap (r : result ClientResponse) : result HttpResponse :=
  rbind r (fun r =>
  rbind (content_read r) (fun content =>
  Ok (mkHttpResponse (status r) content))).

Definition is_type_error {A : Type} (r : result A) : bool :=
  match r with
  | inl (TypeError _ _) => true
  | _ => false
  end.

End Http.

(** ** Sample inputs of the closed examples *)

(** The status codes [lo], ..., [hi]. *)
Definition status_range (lo hi : Z) : list Z :=
  map (fun k => lo + Z.of_nat k) (seq 0 (Z.to_nat (hi - lo + 1))).

(** The bytes of the document that maps the key a to 1. *)
Definition json_object_a1 : bytes := [x7b; x22; x61; x22; x3a; x31; x7d].

(** A property list without the XML header, holding a mapping. *)
Definition plist_fragment_dict : bytes :=
  Py.b "<plist version='1.0'><dict><key>a</key><integer>1</integer></dict></plist>".

(** A property list without the XML header, holding an array. *)
Definition plist_fragment_array : bytes :=
  Py.b "<plist version='1.0'><array><true/><string>x</string></array></plist>".


(** A property list without the XML header, holding a date that stops after
    the year. *)
Definition plist_fragment_date : bytes :=
  Py.b "<plist version='1.0'><date>2020Z</date></plist>".


(** A transport that answers every call with status 200 and a JSON body. *)
Definition network_200 : list Call -> Call -> result ClientResponse :=
  fun _ _ => Ok (mkClientResponse 200 (Ok json_object_a1)).

(** * Properties *)

(** ** The UTF-8 codec: decoding inverts encoding, and only encodings decode *)

Module Utf8Facts.

Import Utf8.
Local Open Scope N_scope.

Lemma quot_rem64 (c : N) :
  exists q r, c / 64 = q /\ c mod 64 = r /\ c = 64 * q + r /\ r < 64.
Proof.
  exists (c / 64), (c mod 64). repeat split.
  - apply N.div_mod; lia.
  - apply N.mod_lt; lia.
Qed.

Lemma Some_eq {A : Type} (x y : A) : Some x = Some y -> x = y.
Proof. intros H. injection H as H. exact H. Qed.

Ltac quot_rem c :=
  let q := fresh "q" in
  let r := fresh "r" in
  let H1 := fresh in
  let H2 := fresh in
  destruct (quot_rem64 c) as (q & r & H1 & H2 & ? & ?);
  rewrite ?H1, ?H2 in *; clear H1 H2.

Ltac decide_tests :=
  repeat match goal with
    | |- context [N.ltb ?a ?b] =>
        first [ replace (N.ltb a b) with true by (symmetry; apply N.ltb_lt; lia)
              | replace (N.ltb a b) with false by (symmetry; apply N.ltb_ge; lia) ]
    | |- context [N.leb ?a ?b] =>
        first [ replace (N.leb a b) with true by (symmetry; apply N.leb_le; lia)
              | replace (N.leb a b) with false by (symmetry; apply N.leb_gt; lia) ]
    end;
  cbn [andb orb negb].

Ltac tests_to_props :=
  repeat match goal with
    | H : andb _ _ = true |- _ => apply andb_prop in H; destruct H
    | H : negb _ = true |- _ => apply negb_true_iff in H
    | H : N.ltb _ _ = true |- _ => apply N.ltb_lt in H
    | H : N.ltb _ _ = false |- _ => apply N.ltb_ge in H
    | H : N.leb _ _ = true |- _ => apply N.leb_le in H
    | H : N.leb _ _ = false |- _ => apply N.leb_gt in H
    end.

Lemma decode_N_cons (b0 : N) (l1 : list N) :
  decode_N (b0 :: l1) =
    if b0 <? 0x80 then option_map (cons b0) (decode_N l1)
    else if b0 <? 0xC0 then None
    else if b0 <? 0xE0 then
      match l1 with
      | b1 :: l2 =>
          let c := (b0 - 0xC0) * 64 + (b1 - 0x80) in
          if is_cont b1 && (0x80 <=? c)
          then option_map (cons c) (decode_N l2)
          else None
      | _ => None
      end
    else if b0 <? 0xF0 then
      match l1 with
      | b1 :: b2 :: l3 =>
          let c := ((b0 - 0xE0) * 64 + (b1 - 0x80)) * 64 + (b2 - 0x80) in
          if is_cont b1 && is_cont b2 && (0x800 <=? c)
             && negb (is_surrogate c)
          then option_map (cons c) (decode_N l3)
          else None
      | _ => None
      end
    else if b0 <? 0xF8 then
      match l1 with
      | b1 :: b2 :: b3 :: l4 =>
          let c := (((b0 - 0xF0) * 64 + (b1 - 0x80)) * 64
                    + (b2 - 0x80)) * 64 + (b3 - 0x80) in
          if is_cont b1 && is_cont b2 && is_cont b3
             && (0x10000 <=? c) && (c <? 0x110000)
          then option_map (cons c) (decode_N l4)
          else None
      | _ => None
      end
    else None.
Proof. reflexivity. Qed.

Lemma encode_cp_bound (c : N) (l : list N) :
  encode_cp c = Some l -> Forall (fun x => x < 256) l.
Proof.
  unfold encode_cp, is_surrogate.
  destruct (c <? 0x80) eqn:E1;
    [| destruct (c <? 0x800) eqn:E2;
       [| destruct (c <? 0x10000) eqn:E3;
          [ destruct ((0xD800 <=? c) && (c <? 0xE000)) eqn:E5
          | destruct (c <? 0x110000) eqn:E4 ] ] ];
    intros H; try discriminate H; apply Some_eq in H; subst l; tests_to_props;
    quot_rem c; try quot_rem q; try quot_rem q0;
    repeat (apply Forall_cons; [lia |]); apply Forall_nil.
Qed.

Lemma decode_encode_cp (c : N) (l l' : list N) :
  encode_cp c = Some l ->
  decode_N (l ++ l') = option_map (cons c) (decode_N l').
Proof.
  unfold encode_cp, is_surrogate.
  destruct (c <? 0x80) eqn:E1;
    [| destruct (c <? 0x800) eqn:E2;
       [| destruct (c <? 0x10000) eqn:E3;
          [ destruct (0xD800 <=? c) eqn:E5; [destruct (c <? 0xE000) eqn:E6 |]
          | destruct (c <? 0x110000) eqn:E4 ] ] ];
    cbn [andb]; intros H; try discriminate H; apply Some_eq in H; subst l;
    tests_to_props;
    cbn [app]; rewrite decode_N_cons; cbv zeta; unfold is_cont, is_surrogate;
    quot_rem c; try quot_rem q; try quot_rem q0;
    decide_tests; do 2 f_equal; lia.
Qed.

Lemma decode_encode_N (s : pystr) :
  forall l, encode_N s = Some l -> decode_N l = Some s.
Proof.
  induction s as [| c s IH]; intros l H; cbn [encode_N] in H.
  - inversion H. reflexivity.
  - destruct (encode_cp c) as [lc |] eqn:Ec; [| discriminate].
    destruct (encode_N s) as [ls |] eqn:Es; [| discriminate].
    inversion H; subst; clear H.
    rewrite (decode_encode_cp c lc ls Ec), (IH ls eq_refl). reflexivity.
Qed.

Lemma encode_N_cons (c : N) (s : pystr) (lc ls : list N) :
  encode_cp c = Some lc -> encode_N s = Some ls ->
  encode_N (c :: s) = Some (lc ++ ls).
Proof. intros Hc Hs. cbn [encode_N]. rewrite Hc, Hs. reflexivity. Qed.

Lemma option_map_cons_Some (c : N) (o : option pystr) (s : pystr) :
  option_map (cons c) o = Some s ->
  exists s', o = Some s' /\ s = c :: s'.
Proof.
  destruct o as [s' |]; cbn; intros H; [| discriminate H].
  apply Some_eq in H. exists s'. split; [reflexivity | symmetry; exact H].
Qed.

(** Whatever decodes is the encoding of what it decodes to. *)
Lemma encode_decode_N (n : nat) :
  forall l s, (List.length l <= n)%nat ->
              decode_N l = Some s -> encode_N s = Some l.
Proof.
  induction n as [| n IH]; intros l s Hlen H.
  - destruct l; [| cbn in Hlen; lia].
    cbn in H. apply Some_eq in H. subst s. reflexivity.
  - destruct l as [| b0 l1].
    + cbn in H. apply Some_eq in H. subst s. reflexivity.
    + rewrite decode_N_cons in H. cbn [List.length] in Hlen.
      destruct (b0 <? 0x80) eqn:E1.
      { apply option_map_cons_Some in H. destruct H as (s' & Hs' & ->).
        apply IH in Hs'; [| lia].
        apply (encode_N_cons b0 s' [b0] l1); [| exact Hs'].
        unfold encode_cp. rewrite E1. reflexivity. }
      destruct (b0 <? 0xC0) eqn:E2; [discriminate H |].
      destruct (b0 <? 0xE0) eqn:E3.
      { destruct l1 as [| b1 l2]; [discriminate H |].
        cbv zeta in H. unfold is_cont in H.
        destruct ((0x80 <=? b1) && (b1 <? 0xC0)
                  && (0x80 <=? (b0 - 0xC0) * 64 + (b1 - 0x80))) eqn:E;
          [| discriminate H].
        apply option_map_cons_Some in H. destruct H as (s' & Hs' & ->).
        cbn [List.length] in Hlen. apply IH in Hs'; [| lia].
        tests_to_props.
        remember ((b0 - 0xC0) * 64 + (b1 - 0x80)) as c eqn:Hc.
        apply (encode_N_cons c s' [b0; b1] l2); [| exact Hs'].
        unfold encode_cp. decide_tests.
        quot_rem c. do 2 f_equal; [lia | f_equal; lia]. }
      destruct (b0 <? 0xF0) eqn:E4.
      { destruct l1 as [| b1 [| b2 l3]]; try discriminate H.
        cbv zeta in H. unfold is_cont, is_surrogate in H.
        remember (((b0 - 0xE0) * 64 + (b1 - 0x80)) * 64 + (b2 - 0x80))
          as c eqn:Hc.
        destruct ((0x80 <=? b1) && (b1 <? 0xC0)) eqn:C1;
          [| discriminate H].
        destruct ((0x80 <=? b2) && (b2 <? 0xC0)) eqn:C2;
          [| discriminate H].
        destruct (0x800 <=? c) eqn:C3; [| discriminate H].
        destruct ((0xD800 <=? c) && (c <? 0xE000)) eqn:C4;
          [discriminate H |].
        cbn [andb negb] in H.
        apply option_map_cons_Some in H. destruct H as (s' & Hs' & ->).
        cbn [List.length] in Hlen. apply IH in Hs'; [| lia].
        tests_to_props.
        apply (encode_N_cons c s' [b0; b1; b2] l3); [| exact Hs'].
        unfold encode_cp, is_surrogate. rewrite C4.
        decide_tests.
        quot_rem c. quot_rem q.
        do 2 f_equal; [lia | f_equal; [lia | f_equal; lia]]. }
      destruct (b0 <? 0xF8) eqn:E5; [| discriminate H].
      destruct l1 as [| b1 [| b2 [| b3 l4]]]; try discriminate H.
      cbv zeta in H. unfold is_cont in H.
      remember ((((b0 - 0xF0) * 64 + (b1 - 0x80)) * 64
                 + (b2 - 0x80)) * 64 + (b3 - 0x80)) as c eqn:Hc.
      destruct ((0x80 <=? b1) && (b1 <? 0xC0)) eqn:C1; [| discriminate H].
      destruct ((0x80 <=? b2) && (b2 <? 0xC0)) eqn:C2; [| discriminate H].
      destruct ((0x80 <=? b3) && (b3 <? 0xC0)) eqn:C3; [| discriminate H].
      destruct (0x10000 <=? c) eqn:C4; [| discriminate H].
      destruct (c <? 0x110000) eqn:C5; [| discriminate H].
      cbn [andb] in H.
      apply option_map_cons_Some in H. destruct H as (s' & Hs' & ->).
      cbn [List.length] in Hlen. apply IH in Hs'; [| lia].
      tests_to_props.
      apply (encode_N_cons c s' [b0; b1; b2; b3] l4); [| exact Hs'].
      unfold encode_cp. decide_tests.
      quot_rem c. quot_rem q. quot_rem q0.
      do 2 f_equal; [lia | f_equal; [lia | f_equal; [lia | f_equal; lia]]].
Qed.

Lemma encode_N_bound (s : pystr) :
  forall l, encode_N s = Some l -> Forall (fun x => x < 256) l.
Proof.
  induction s as [| c s IH]; intros l H; cbn [encode_N] in H.
  - apply Some_eq in H. subst l. constructor.
  - destruct (encode_cp c) as [lc |] eqn:Ec; [| discriminate].
    destruct (encode_N s) as [ls |] eqn:Es; [| discriminate].
    apply Some_eq in H. subst l. apply Forall_app. split.
    + exact (encode_cp_bound c lc Ec).
    + apply IH. reflexivity.
Qed.

Lemma byte_of_to_N (x : Byte.byte) : byte_of_N (Byte.to_N x) = x.
Proof. unfold byte_of_N. rewrite Byte.of_to_N. reflexivity. Qed.

Lemma to_byte_of_N (n : N) : n < 256 -> Byte.to_N (byte_of_N n) = n.
Proof.
  intros Hn. unfold byte_of_N.
  destruct (Byte.of_N n) as [x |] eqn:E.
  - apply Byte.to_of_N. exact E.
  - apply Byte.of_N_None_iff in E. lia.
Qed.

Lemma map_byte_of_to_N (data : bytes) :
  map byte_of_N (map Byte.to_N data) = data.
Proof.
  induction data as [| x data IH]; cbn [map]; [reflexivity |].
  rewrite byte_of_to_N, IH. reflexivity.
Qed.

Lemma map_to_byte_of_N (l : list N) :
  Forall (fun x => x < 256) l -> map Byte.to_N (map byte_of_N l) = l.
Proof.
  induction 1 as [| n l Hn _ IH]; cbn [map]; [reflexivity |].
  rewrite (to_byte_of_N n Hn), IH. reflexivity.
Qed.

(** A string of scalar values has an encoding. *)
Lemma encode_scalars (s : pystr) :
  forallb scalar s = true -> exists data, encode s = Some data.
Proof.
  intros H. unfold encode.
  assert (E : exists l, encode_N s = Some l).
  { induction s as [| c s IH]; [exists []; reflexivity |].
    cbn [forallb] in H. apply andb_prop in H. destruct H as [Hc Hs].
    destruct (IH Hs) as [ls Els].
    assert (Ec : exists lc, encode_cp c = Some lc).
    { unfold scalar in Hc. apply andb_prop in Hc. destruct Hc as [Hr Hg].
      apply negb_true_iff in Hg. unfold encode_cp. rewrite Hg, Hr.
      destruct (c <? 0x80); [eexists; reflexivity |].
      destruct (c <? 0x800); [eexists; reflexivity |].
      destruct (c <? 0x10000); eexists; reflexivity. }
    destruct Ec as [lc Elc]. exists (lc ++ ls).
    exact (encode_N_cons c s lc ls Elc Els). }
  destruct E as [l ->]. eexists. reflexivity.
Qed.

(** Decoding inverts encoding. *)
Lemma decode_encode (s : pystr) (data : bytes) :
  encode s = Some data -> decode data = Some s.
Proof.
  unfold encode, decode. destruct (encode_N s) as [l |] eqn:E; cbn; intros H;
    [| discriminate H].
  apply Some_eq in H. subst data.
  rewrite (map_to_byte_of_N l (encode_N_bound s l E)).
  exact (decode_encode_N s l E).
Qed.

(** Only encodings decode. *)
Lemma encode_decode (data : bytes) (s : pystr) :
  decode data = Some s -> encode s = Some data.
Proof.
  unfold encode, decode. intros H.
  rewrite (encode_decode_N _ _ s (le_n _) H). cbn.
  rewrite map_byte_of_to_N. reflexivity.
Qed.

End Utf8Facts.

(** ** The UTF-8 codec: what decodes, and how long it is *)

Module Utf8Bounds.
Import Utf8 Utf8Facts.
Local Open Scope N_scope.

(** A code point that has an encoding is a scalar value, and its encoding
    has one to four bytes. *)
Lemma encode_cp_scalar (c : N) (l : list N) :
  encode_cp c = Some l ->
  scalar c = true /\ (1 <= List.length l <= 4)%nat.
Proof.
  unfold encode_cp, scalar, is_surrogate.
  destruct (c <? 0x80) eqn:E1;
    [| destruct (c <? 0x800) eqn:E2;
       [| destruct (c <? 0x10000) eqn:E3;
          [ destruct ((0xD800 <=? c) && (c <? 0xE000)) eqn:E5
          | destruct (c <? 0x110000) eqn:E4 ] ] ];
    intros H; try discriminate H; apply Some_eq in H; subst l;
    (split; [| cbn; lia]);
    tests_to_props; try reflexivity.
  - decide_tests. reflexivity.
  - decide_tests. reflexivity.
  - decide_tests. reflexivity.
  - decide_tests. reflexivity.
Qed.

Lemma encode_N_scalar (s : pystr) :
  forall l, encode_N s = Some l ->
            forallb scalar s = true
            /\ (List.length s <= List.length l <= 4 * List.length s)%nat.
Proof.
  induction s as [| c s IH]; intros l H; cbn [encode_N] in H.
  - apply Some_eq in H. subst l. split; [reflexivity | cbn; lia].
  - destruct (encode_cp c) as [lc |] eqn:Ec; [| discriminate].
    destruct (encode_N s) as [ls |] eqn:Es; [| discriminate].
    apply Some_eq in H. subst l.
    destruct (encode_cp_scalar c lc Ec) as [Sc Lc].
    destruct (IH ls eq_refl) as [Ss Ls].
    split.
    + cbn [forallb]. rewrite Sc, Ss. reflexivity.
    + rewrite length_app. cbn [List.length]. lia.
Qed.

(** What decodes holds scalar values only, at most one for each byte and
    at least one for every four. *)
Lemma decode_scalar (data : bytes) (s : pystr) :
  decode data = Some s ->
  forallb scalar s = true
  /\ (List.length s <= List.length data <= 4 * List.length s)%nat.
Proof.
  intros H. apply encode_decode in H. unfold encode in H.
  destruct (encode_N s) as [l |] eqn:E; [| discriminate H].
  cbn in H. apply Some_eq in H. subst data. rewrite length_map.
  exact (encode_N_scalar s l E).
Qed.

(** Bytes below 0x80 decode to themselves. *)
Lemma decode_ascii (data : bytes) :
  forallb (fun x => Byte.to_N x <? 0x80) data = true ->
  decode data = Some (map Byte.to_N data).
Proof.
  unfold decode. induction data as [| x data IH]; [reflexivity |].
  cbn [forallb map]. intros H. apply andb_prop in H. destruct H as [Hx Hd].
  rewrite decode_N_cons, Hx, (IH Hd). reflexivity.
Qed.

(** The byte order mark, encoded, and then [data]. *)
Lemma decode_bom (data : bytes) (s : pystr) :
  decode data = Some s ->
  decode (Byte.xef :: Byte.xbb :: Byte.xbf :: data) = Some (0xFEFF :: s).
Proof.
  unfold decode. intros H. cbn [map]. rewrite decode_N_cons.
  change (Byte.to_N Byte.xef) with 0xEF.
  change (Byte.to_N Byte.xbb) with 0xBB.
  change (Byte.to_N Byte.xbf) with 0xBF.
  cbn -[decode_N]. rewrite H. reflexivity.
Qed.

End Utf8Bounds.

(** ** The embedded JSON decoder never reaches its bounds *)

Module JsonFacts.
Import Json.
Local Open Scope nat_scope.

Lemma progress_Fail {A : Type} (msg : string) (s : pystr) :
  progress (@Fail A (JSONDecodeError msg)) s.
Proof. split; [discriminate | intros v r H; discriminate H]. Qed.

Lemma progress_Fail_from {A B : Type} (e : exn) (s : pystr) :
  @Fail A e <> Fail RecursionError -> progress (@Fail B e) s.
Proof.
  intros NF. split.
  - intros H. apply NF. injection H as ->. reflexivity.
  - intros v r H. discriminate H.
Qed.

Lemma progress_Stop {A : Type} (s : pystr) : progress (@Stop A) s.
Proof. split; [discriminate | intros v r H; discriminate H]. Qed.

Lemma progress_Scanned {A : Type} (v : A) (r s : pystr) :
  List.length r < List.length s -> progress (Scanned v r) s.
Proof.
  intros H. split; [discriminate |].
  intros v' r' E. injection E as _ <-. exact H.
Qed.

Lemma progress_weaken {A : Type} (res : scan A) (s s' : pystr) :
  List.length s <= List.length s' -> progress res s -> progress res s'.
Proof.
  intros L [H1 H2]. split; [exact H1 |].
  intros v r E. specialize (H2 v r E). lia.
Qed.

Lemma skip_ws_length (s : pystr) : List.length (skip_ws s) <= List.length s.
Proof.
  induction s as [| c s IH]; cbn [skip_ws]; [lia |].
  destruct (is_ws c); cbn [List.length]; lia.
Qed.

Lemma scanstring_progress (n : nat) :
  forall s acc, List.length s <= n -> progress (scanstring s acc) s.
Proof.
  induction n as [| n IH]; intros s acc L.
  - destruct s; [| cbn in L; lia]. apply progress_Fail.
  - destruct s as [| c r]; [apply progress_Fail |].
    cbn [List.length] in L. cbn [scanstring].
    assert (W : forall r' acc', List.length r' <= List.length r ->
                                progress (scanstring r' acc') (c :: r)).
    { intros r' acc' Lr. apply (progress_weaken _ r'); [cbn; lia |].
      apply IH. lia. }
    repeat match goal with
           | |- progress (Fail (JSONDecodeError _)) _ => apply progress_Fail
           | |- progress (Fail unterminated) _ => apply progress_Fail
           | |- progress (Fail bad_uXXXX) _ => apply progress_Fail
           | |- progress (Scanned _ _) _ => apply progress_Scanned; cbn; lia
           | |- progress (scanstring _ _) _ => apply W; cbn [List.length]; lia
           | |- progress (if ?b then _ else _) _ => destruct b
           | |- progress (match ?x with _ => _ end) _ => destruct x
           end.
Qed.

Lemma digits_length (s : pystr) :
  List.length (fst (digits s)) + List.length (snd (digits s)) = List.length s.
Proof.
  induction s as [| c s IH]; cbn [digits]; [reflexivity |].
  destruct (is_digit c); [| reflexivity].
  destruct (digits s) as [d r]. cbn [fst snd List.length] in *. lia.
Qed.

Lemma digits_rest (s d r : pystr) :
  digits s = (d, r) -> List.length r <= List.length s.
Proof.
  intros H. pose proof (digits_length s) as L. rewrite H in L.
  cbn [fst snd] in L. lia.
Qed.

Lemma match_integer_rest (s : pystr) (neg : bool) (d r : pystr) :
  match_integer s = Some (neg, d, r) -> List.length r < List.length s.
Proof.
  unfold match_integer.
  destruct s as [| c r0].
  - intros H. discriminate H.
  - destruct (c =? ch "-")%N; intros H.
    + destruct r0 as [| c1 r1]; [discriminate H |].
      destruct (c1 =? ch "0")%N.
      * injection H as _ _ <-. cbn. lia.
      * destruct (is_digit c1); [| discriminate H].
        destruct (digits r1) as [d0 r'] eqn:D. injection H as _ _ <-.
        pose proof (digits_rest r1 d0 r' D). cbn. lia.
    + destruct (c =? ch "0")%N.
      * injection H as _ _ <-. cbn. lia.
      * destruct (is_digit c); [| discriminate H].
        destruct (digits r0) as [d0 r'] eqn:D. injection H as _ _ <-.
        pose proof (digits_rest r0 d0 r' D). cbn. lia.
Qed.

Lemma match_frac_rest (s : pystr) :
  List.length (snd (match_frac s)) <= List.length s.
Proof.
  unfold match_frac. destruct s as [| c r]; [cbn; lia |].
  destruct (c =? ch ".")%N; [| cbn; lia].
  destruct (digits r) as [[| d0 d] r'] eqn:D; [cbn; lia |].
  pose proof (digits_rest r _ r' D). cbn [snd List.length]. lia.
Qed.

Lemma match_exp_rest (s : pystr) :
  List.length (snd (match_exp s)) <= List.length s.
Proof.
  unfold match_exp. destruct s as [| c r]; [cbn; lia |].
  destruct ((c =? ch "e")%N || (c =? ch "E")%N); [| cbn; lia].
  destruct r as [| c1 r'].
  - cbn. lia.
  - destruct ((c1 =? ch "-")%N || (c1 =? ch "+")%N).
    + destruct (digits r') as [[| d0 d] r2] eqn:D; [cbn; lia |].
      pose proof (digits_rest r' _ r2 D). cbn [snd List.length]. lia.
    + destruct (digits (c1 :: r')) as [[| d0 d] r2] eqn:D; [cbn; lia |].
      pose proof (digits_rest (c1 :: r') _ r2 D).
      cbn [snd List.length] in *. lia.
Qed.

Lemma match_number_rest (s : pystr) (v : pyobj) (r : pystr) :
  match_number s = Some (v, r) -> List.length r < List.length s.
Proof.
  unfold match_number.
  destruct (match_integer s) as [[[neg d] r0] |] eqn:I; [| discriminate].
  pose proof (match_integer_rest s neg d r0 I) as L0.
  pose proof (match_frac_rest r0) as L1.
  destruct (match_frac r0) as [frac r1]. cbn [snd] in L1.
  pose proof (match_exp_rest r1) as L2.
  destruct (match_exp r1) as [exp r2]. cbn [snd] in L2.
  destruct frac; [destruct exp |]; intros H; injection H as _ <-; lia.
Qed.

Lemma strip_prefix_length (w : pystr) :
  forall s r, strip_prefix w s = Some r ->
              List.length r + List.length w = List.length s.
Proof.
  induction w as [| a w IH]; intros s r H; cbn [strip_prefix] in H.
  - injection H as <-. cbn. lia.
  - destruct s as [| c s']; [discriminate H |].
    destruct (c =? a)%N; [| discriminate H].
    specialize (IH s' r H). cbn [List.length]. lia.
Qed.

Lemma constant_rest (w : string) (v v' : pyobj) (s r : pystr) :
  w <> ""%string -> constant w v s = Some (v', r) ->
  List.length r < List.length s.
Proof.
  unfold constant. intros Hw H.
  destruct (strip_prefix (Py.u w) s) as [r0 |] eqn:E; [| discriminate H].
  cbn in H. injection H as _ <-.
  pose proof (strip_prefix_length _ _ _ E) as L.
  destruct w as [| a w]; [contradiction |]. cbn in L. lia.
Qed.

Section ContainerFacts.

Variable scan_once : pystr -> scan pyobj.
Variable bound : nat.
Hypothesis scan_once_progress :
  forall s, List.length s <= bound -> progress (scan_once s) s.

Lemma array_loop_progress (n : nat) :
  forall s acc, List.length s <= bound -> List.length s < n ->
                progress (array_loop scan_once n s acc) s.
Proof.
  induction n as [| n IH]; intros s acc Lb Ln; [lia |].
  cbn [array_loop].
  destruct (scan_once_progress s Lb) as [NF SH].
  destruct (scan_once s) as [v r | | e] eqn:E.
  - specialize (SH v r eq_refl).
    pose proof (skip_ws_length r) as W.
    destruct (skip_ws r) as [| c r']; [apply progress_Fail |].
    cbn [List.length] in W.
    destruct (c =? ch "]")%N; [apply progress_Scanned; lia |].
    destruct (c =? ch ",")%N; [| apply progress_Fail].
    pose proof (skip_ws_length r') as W'.
    apply (progress_weaken _ (skip_ws r')); [lia |].
    apply IH; lia.
  - apply progress_Fail.
  - exact (progress_Fail_from e _ NF).
Qed.

Lemma JSONArray_progress (s : pystr) :
  List.length s <= bound -> progress (JSONArray scan_once s) s.
Proof.
  intros Lb. unfold JSONArray. pose proof (skip_ws_length s) as W.
  destruct (skip_ws s) as [| c r].
  - apply (progress_weaken _ []); [cbn; lia |].
    apply array_loop_progress; cbn; lia.
  - destruct (c =? ch "]")%N.
    + apply progress_Scanned. cbn [List.length] in W. lia.
    + apply (progress_weaken _ (c :: r)); [exact W |].
      apply array_loop_progress; lia.
Qed.

Lemma object_loop_progress (n : nat) :
  forall s pairs, List.length s <= bound -> List.length s < n ->
                  progress (object_loop scan_once n s pairs) s.
Proof.
  induction n as [| n IH]; intros s pairs Lb Ln; [lia |].
  cbn [object_loop].
  destruct (scanstring_progress (List.length s) s [] (le_n _)) as [NF SH].
  destruct (scanstring s []) as [key r | | e] eqn:E.
  - specialize (SH key r eq_refl).
    pose proof (skip_ws_length r) as W.
    destruct (skip_ws r) as [| c r1]; [apply progress_Fail |].
    cbn [List.length] in W.
    destruct (c =? ch ":")%N; [| apply progress_Fail].
    pose proof (skip_ws_length r1) as W1.
    destruct (scan_once_progress (skip_ws r1) ltac:(lia)) as [NF1 SH1].
    destruct (scan_once (skip_ws r1)) as [value r2 | | e] eqn:E1.
    + specialize (SH1 value r2 eq_refl).
      pose proof (skip_ws_length r2) as W2.
      destruct (skip_ws r2) as [| c2 r3]; [apply progress_Fail |].
      cbn [List.length] in W2.
      destruct (c2 =? ch "}")%N; [apply progress_Scanned; lia |].
      destruct (c2 =? ch ",")%N; [| apply progress_Fail].
      pose proof (skip_ws_length r3) as W3.
      destruct (skip_ws r3) as [| c3 r4]; [apply progress_Fail |].
      cbn [List.length] in W3.
      destruct (c3 =? quote)%N; [| apply progress_Fail].
      apply (progress_weaken _ r4); [lia |].
      apply IH; lia.
    + apply progress_Fail.
    + exact (progress_Fail_from e _ NF1).
  - apply progress_Fail.
  - exact (progress_Fail_from e _ NF).
Qed.

Lemma JSONObject_progress (s : pystr) :
  List.length s <= bound -> progress (JSONObject scan_once s) s.
Proof.
  intros Lb. unfold JSONObject. pose proof (skip_ws_length s) as W.
  destruct (skip_ws s) as [| c r]; [apply progress_Fail |].
  cbn [List.length] in W.
  destruct (c =? quote)%N.
  - apply (progress_weaken _ r); [lia |].
    apply object_loop_progress; lia.
  - destruct (c =? ch "}")%N; [apply progress_Scanned; lia |].
    apply progress_Fail.
Qed.

End ContainerFacts.

Lemma first_some_cons {A : Type} (o : option A) (l : list (option A)) :
  first_some (o :: l) = match o with Some a => Some a | None => first_some l end.
Proof. reflexivity. Qed.

Lemma scan_once_progress (depth : nat) :
  forall s, List.length s < depth -> progress (scan_once depth s) s.
Proof.
  induction depth as [| d IH]; intros s L; [lia |].
  cbn [scan_once].
  destruct s as [| c r]; [apply progress_Stop |].
  cbn [List.length] in L.
  assert (IH' : forall s', List.length s' <= List.length r ->
                           progress (scan_once d s') s').
  { intros s' Ls. apply IH. lia. }
  destruct (c =? quote)%N.
  { destruct (scanstring_progress (List.length r) r [] (le_n _)) as [NF SH].
    destruct (scanstring r []) as [v r' | | e] eqn:E.
    - apply progress_Scanned. specialize (SH v r' eq_refl). cbn. lia.
    - apply progress_Stop.
    - exact (progress_Fail_from e _ NF). }
  destruct (c =? ch "{")%N.
  { apply (progress_weaken _ r); [cbn; lia |].
    apply (JSONObject_progress (scan_once d) (List.length r) IH'). lia. }
  destruct (c =? ch "[")%N.
  { apply (progress_weaken _ r); [cbn; lia |].
    apply (JSONArray_progress (scan_once d) (List.length r) IH'). lia. }
  set (s := c :: r).
  destruct (int_too_long s);
    [apply (@progress_Fail_from pyobj); discriminate |].
  repeat rewrite first_some_cons.
  repeat match goal with
         | |- progress (match match constant ?w ?v s with _ => _ end with _ => _ end) _ =>
             let E := fresh "E" in
             destruct (constant w v s) as [[v' r'] |] eqn:E;
             [apply progress_Scanned;
              apply (constant_rest w v v' s r'); [discriminate | exact E] |]
         | |- progress (match match match_number s with _ => _ end with _ => _ end) _ =>
             let E := fresh "E" in
             destruct (match_number s) as [[v' r'] |] eqn:E;
             [apply progress_Scanned; exact (match_number_rest s v' r' E) |]
         end.
  apply progress_Stop.
Qed.

(** The bounds of the embedding are never exhausted: no run of the embedded
    decoder ends in the exception that marks them. *)
Lemma loads_total (s : pystr) : loads s <> Raise RecursionError.
Proof.
  assert (D : decode s <> Raise RecursionError).
  { unfold decode. pose proof (skip_ws_length s) as W.
    destruct (scan_once_progress (S (List.length s)) (skip_ws s) ltac:(lia))
      as [NF _].
    destruct (scan_once (S (List.length s)) (skip_ws s)) as [v r | | e].
    - destruct (skip_ws r); discriminate.
    - discriminate.
    - intros H. apply NF. injection H as ->. reflexivity. }
  unfold loads. destruct s as [| c r]; [exact D |].
  destruct c as [| p]; [exact D |].
  repeat match goal with
         | |- match ?q with _ => _ end <> _ =>
             destruct q; try exact D; try discriminate
         end.
Qed.
End JsonFacts.

(** ** The JSON decoder: its exceptions and the shape of what it yields *)

Module JsonShape.
Import Json.
Local Open Scope nat_scope.

Lemma fails_Fail {A : Type} (e : exn) :
  decoder_error e = true -> fails_as_decoder (@Fail A e).
Proof. intros H e' E. injection E as <-. exact H. Qed.

Lemma fails_Stop {A : Type} : fails_as_decoder (@Stop A).
Proof. intros e E. discriminate E. Qed.

Lemma fails_Scanned {A : Type} (v : A) (r : pystr) :
  fails_as_decoder (Scanned v r).
Proof. intros e E. discriminate E. Qed.

Lemma fails_from {A B : Type} (e : exn) :
  fails_as_decoder (@Fail A e) -> fails_as_decoder (@Fail B e).
Proof. intros H. apply fails_Fail. exact (H e eq_refl). Qed.

Lemma scanstring_fails (n : nat) :
  forall s acc, List.length s <= n -> fails_as_decoder (scanstring s acc).
Proof.
  induction n as [| n IH]; intros s acc L.
  - destruct s; [| cbn in L; lia]. apply fails_Fail. reflexivity.
  - destruct s as [| c r]; [apply fails_Fail; reflexivity |].
    cbn [List.length] in L. cbn [scanstring].
    assert (W : forall r' acc', List.length r' <= List.length r ->
                                fails_as_decoder (scanstring r' acc')).
    { intros r' acc' Lr. apply IH. lia. }
    repeat match goal with
           | |- fails_as_decoder (Fail _) => apply fails_Fail; reflexivity
           | |- fails_as_decoder (Scanned _ _) => apply fails_Scanned
           | |- fails_as_decoder (scanstring _ _) =>
               apply W; cbn [List.length]; lia
           | |- fails_as_decoder (if ?b then _ else _) => destruct b
           | |- fails_as_decoder (match ?x with _ => _ end) => destruct x
           end.
Qed.

Section ContainerShape.

Variable scan_once : pystr -> scan pyobj.
Hypothesis scan_once_fails : forall s, fails_as_decoder (scan_once s).

Lemma array_loop_fails (n : nat) :
  forall s acc, fails_as_decoder (array_loop scan_once n s acc).
Proof.
  induction n as [| n IH]; intros s acc; [apply fails_Fail; reflexivity |].
  cbn [array_loop]. pose proof (scan_once_fails s) as F.
  destruct (scan_once s) as [v r | | e].
  - destruct (skip_ws r) as [| c r']; [apply fails_Fail; reflexivity |].
    destruct (c =? ch "]")%N; [apply fails_Scanned |].
    destruct (c =? ch ",")%N; [apply IH | apply fails_Fail; reflexivity].
  - apply fails_Fail; reflexivity.
  - exact (fails_from e F).
Qed.

Lemma JSONArray_fails (s : pystr) : fails_as_decoder (JSONArray scan_once s).
Proof.
  unfold JSONArray. destruct (skip_ws s) as [| c r]; [apply array_loop_fails |].
  destruct (c =? ch "]")%N; [apply fails_Scanned | apply array_loop_fails].
Qed.

Lemma object_loop_fails (n : nat) :
  forall s pairs, fails_as_decoder (object_loop scan_once n s pairs).
Proof.
  induction n as [| n IH]; intros s pairs; [apply fails_Fail; reflexivity |].
  cbn [object_loop].
  pose proof (scanstring_fails (List.length s) s [] (le_n _)) as F.
  destruct (scanstring s []) as [key r | | e].
  - destruct (skip_ws r) as [| c r1]; [apply fails_Fail; reflexivity |].
    destruct (c =? ch ":")%N; [| apply fails_Fail; reflexivity].
    pose proof (scan_once_fails (skip_ws r1)) as F1.
    destruct (scan_once (skip_ws r1)) as [value r2 | | e].
    + destruct (skip_ws r2) as [| c2 r3]; [apply fails_Fail; reflexivity |].
      destruct (c2 =? ch "}")%N; [apply fails_Scanned |].
      destruct (c2 =? ch ",")%N; [| apply fails_Fail; reflexivity].
      destruct (skip_ws r3) as [| c3 r4]; [apply fails_Fail; reflexivity |].
      destruct (c3 =? quote)%N; [apply IH | apply fails_Fail; reflexivity].
    + apply fails_Fail; reflexivity.
    + exact (fails_from e F1).
  - apply fails_Fail; reflexivity.
  - exact (fails_from e F).
Qed.

Lemma JSONObject_fails (s : pystr) : fails_as_decoder (JSONObject scan_once s).
Proof.
  unfold JSONObject.
  destruct (skip_ws s) as [| c r]; [apply fails_Fail; reflexivity |].
  destruct (c =? quote)%N; [apply object_loop_fails |].
  destruct (c =? ch "}")%N; [apply fails_Scanned | apply fails_Fail; reflexivity].
Qed.

(** The loops yield a list and a mapping, whatever [scan_once] yields. *)
Lemma array_loop_yields (n : nat) :
  forall s acc,
    yields (fun v => negb (Py.is_dict v)) (array_loop scan_once n s acc).
Proof.
  induction n as [| n IH]; intros s acc; [intros v r E; discriminate E |].
  cbn [array_loop].
  destruct (scan_once s) as [v r | | e]; try (intros v' r' E; discriminate E).
  destruct (skip_ws r) as [| c r']; [intros v' r' E; discriminate E |].
  destruct (c =? ch "]")%N.
  - intros v' r'' E. injection E as <- _. reflexivity.
  - destruct (c =? ch ",")%N; [apply IH | intros v' r'' E; discriminate E].
Qed.

Lemma JSONArray_yields (s : pystr) :
  yields (fun v => negb (Py.is_dict v)) (JSONArray scan_once s).
Proof.
  unfold JSONArray. destruct (skip_ws s) as [| c r]; [apply array_loop_yields |].
  destruct (c =? ch "]")%N; [| apply array_loop_yields].
  intros v' r' E. injection E as <- _. reflexivity.
Qed.

Lemma object_loop_yields (n : nat) :
  forall s pairs, yields Py.is_dict (object_loop scan_once n s pairs).
Proof.
  induction n as [| n IH]; intros s pairs; [intros v r E; discriminate E |].
  cbn [object_loop].
  destruct (scanstring s []) as [key r | | e];
    try (intros v' r' E; discriminate E).
  destruct (skip_ws r) as [| c r1]; [intros v' r' E; discriminate E |].
  destruct (c =? ch ":")%N; [| intros v' r' E; discriminate E].
  destruct (scan_once (skip_ws r1)) as [value r2 | | e];
    try (intros v' r' E; discriminate E).
  destruct (skip_ws r2) as [| c2 r3]; [intros v' r' E; discriminate E |].
  destruct (c2 =? ch "}")%N.
  - intros v' r' E. injection E as <- _. reflexivity.
  - destruct (c2 =? ch ",")%N; [| intros v' r' E; discriminate E].
    destruct (skip_ws r3) as [| c3 r4]; [intros v' r' E; discriminate E |].
    destruct (c3 =? quote)%N; [apply IH | intros v' r' E; discriminate E].
Qed.

Lemma JSONObject_yields (s : pystr) :
  yields Py.is_dict (JSONObject scan_once s).
Proof.
  unfold JSONObject.
  destruct (skip_ws s) as [| c r]; [intros v' r' E; discriminate E |].
  destruct (c =? quote)%N; [apply object_loop_yields |].
  destruct (c =? ch "}")%N; [| intros v' r' E; discriminate E].
  intros v' r' E. injection E as <- _. reflexivity.
Qed.

End ContainerShape.

Lemma scan_once_fails (depth : nat) :
  forall s, fails_as_decoder (scan_once depth s).
Proof.
  induction depth as [| d IH]; intros s; [apply fails_Fail; reflexivity |].
  cbn [scan_once]. destruct s as [| c r]; [apply fails_Stop |].
  destruct (c =? quote)%N.
  { pose proof (scanstring_fails (List.length r) r [] (le_n _)) as F.
    destruct (scanstring r []) as [v r' | | e].
    - apply fails_Scanned.
    - apply fails_Stop.
    - exact (fails_from e F). }
  destruct (c =? ch "{")%N; [apply (JSONObject_fails _ IH) |].
  destruct (c =? ch "[")%N; [apply (JSONArray_fails _ IH) |].
  destruct (int_too_long (c :: r)); [apply fails_Fail; reflexivity |].
  destruct (first_some _) as [[v r'] |]; [apply fails_Scanned | apply fails_Stop].
Qed.

(** [json.loads], as embedded, raises the decoder's exceptions only. *)
Lemma loads_fails (s : pystr) (e : exn) :
  loads s = Raise e -> decoder_error e = true.
Proof.
  assert (D : decode s = Raise e -> decoder_error e = true).
  { unfold decode.
    pose proof (scan_once_fails (S (List.length s)) (skip_ws s)) as F.
    destruct (scan_once (S (List.length s)) (skip_ws s)) as [v r | | e'].
    - destruct (skip_ws r); intros H; [discriminate H |].
      injection H as <-. reflexivity.
    - intros H. injection H as <-. reflexivity.
    - intros H. injection H as <-. exact (F e' eq_refl). }
  unfold loads. destruct s as [| c r]; [exact D |].
  destruct c as [| p]; [exact D |].
  repeat match goal with
         | |- match ?q with _ => _ end = _ -> _ =>
             destruct q; try exact D
         end.
  intros H. injection H as <-. reflexivity.
Qed.

Lemma constant_value (w : string) (v v' : pyobj) (s r : pystr) :
  constant w v s = Some (v', r) -> v' = v.
Proof.
  unfold constant. destruct (strip_prefix (Py.u w) s); [| discriminate].
  cbn. intros H. injection H as <- _. reflexivity.
Qed.

Lemma match_number_value (s : pystr) (v : pyobj) (r : pystr) :
  match_number s = Some (v, r) -> Py.is_dict v = false.
Proof.
  unfold match_number.
  destruct (match_integer s) as [[[neg d] r0] |]; [| discriminate].
  destruct (match_frac r0) as [frac r1]. destruct (match_exp r1) as [exp r2].
  destruct frac; [destruct exp |]; intros H; injection H as <- _; reflexivity.
Qed.

(** The value [scan_once] yields is a mapping exactly when the input begins
    with an opening brace. *)
Lemma scan_once_dict (depth : nat) (c : N) (s : pystr) (v : pyobj) (r : pystr) :
  scan_once depth (c :: s) = Scanned v r ->
  Py.is_dict v = (c =? ch "{")%N.
Proof.
  destruct depth as [| d]; [discriminate |]. cbn [scan_once].
  destruct (c =? quote)%N eqn:Q.
  { assert ((c =? ch "{")%N = false) as ->.
    { apply N.eqb_eq in Q. subst c. reflexivity. }
    destruct (scanstring s []); intros H; try discriminate H.
    injection H as <- _. reflexivity. }
  destruct (c =? ch "{")%N eqn:B.
  { intros H. exact (JSONObject_yields _ _ _ _ H). }
  destruct (c =? ch "[")%N.
  { intros H. apply negb_true_iff. exact (JSONArray_yields _ _ _ _ H). }
  set (s0 := c :: s).
  destruct (int_too_long s0); [discriminate |].
  repeat rewrite JsonFacts.first_some_cons.
  repeat match goal with
         | |- match match constant ?w ?v0 s0 with _ => _ end with _ => _ end = _ -> _ =>
             let E := fresh "E" in
             destruct (constant w v0 s0) as [[v' r'] |] eqn:E;
             [apply constant_value in E; subst v';
              intros H; injection H as <- _; reflexivity |]
         | |- match match match_number s0 with _ => _ end with _ => _ end = _ -> _ =>
             let E := fresh "E" in
             destruct (match_number s0) as [[v' r'] |] eqn:E;
             [apply match_number_value in E;
              intros H; injection H as <- _; exact E |]
         end.
  discriminate.
Qed.

(** What [loads] returns is a mapping exactly when the first character
    after the white space is an opening brace. *)
Lemma loads_dict (s : pystr) (v : pyobj) :
  loads s = Ok v ->
  Py.is_dict v = match skip_ws s with
                 | c :: _ => (c =? ch "{")%N
                 | [] => false
                 end.
Proof.
  assert (D : decode s = Ok v ->
              Py.is_dict v = match skip_ws s with
                             | c :: _ => (c =? ch "{")%N
                             | [] => false
                             end).
  { unfold decode.
    destruct (skip_ws s) as [| c s'] eqn:W.
    - cbn [scan_once]. discriminate.
    - destruct (scan_once (S (List.length s)) (c :: s')) as [v' r | | e] eqn:E;
        try discriminate.
      destruct (skip_ws r); [| discriminate].
      intros H. injection H as <-.
      exact (scan_once_dict _ _ _ _ _ E). }
  unfold loads. destruct s as [| c r]; [exact D |].
  destruct c as [| p]; [exact D |].
  repeat match goal with
         | |- match ?q with _ => _ end = _ -> _ =>
             destruct q; try exact D
         end.
  discriminate.
Qed.

(** White space only has no value. *)
Lemma skip_ws_blank (s : pystr) :
  forallb is_ws s = true -> skip_ws s = [].
Proof.
  induction s as [| c s IH]; [reflexivity |].
  cbn [forallb skip_ws]. intros H. apply andb_prop in H.
  destruct H as [-> Hs]. exact (IH Hs).
Qed.

Lemma loads_blank (s : pystr) :
  forallb is_ws s = true -> loads s = Raise expecting_value.
Proof.
  intros H.
  assert (D : decode s = Raise expecting_value).
  { unfold decode. rewrite (skip_ws_blank s H). reflexivity. }
  unfold loads. destruct s as [| c r]; [exact D |].
  cbn [forallb] in H. apply andb_prop in H. destruct H as [Hc _].
  unfold is_ws in Hc.
  destruct (N.eqb_spec c 0xFEFF) as [-> | NE]; [discriminate Hc |].
  destruct c as [| p]; [exact D |].
  repeat match goal with
         | |- match ?q with _ => _ end = _ =>
             destruct q; try exact D
         end.
  contradiction NE. reflexivity.
Qed.

End JsonShape.

(** ** The decimal numeral of a status code *)

Module StrFacts.

(** The value of a numeral read behind the digits [acc]. *)
Lemma of_uint_acc_bounds (d : Decimal.uint) :
  forall acc,
    Z.pos acc * 10 ^ Z.of_nat (Decimal.nb_digits d)
    <= Z.pos (Pos.of_uint_acc d acc)
    < (Z.pos acc + 1) * 10 ^ Z.of_nat (Decimal.nb_digits d).
Proof.
  induction d as [| d IH | d IH | d IH | d IH | d IH | d IH | d IH | d IH
                  | d IH | d IH]; intros acc;
    cbn [Pos.of_uint_acc Decimal.nb_digits];
    [cbn; lia | ..];
    rewrite Nat2Z.inj_succ, Z.pow_succ_r by lia;
    match goal with
    | |- context [Pos.of_uint_acc d ?a] => specialize (IH a)
    end;
    assert (0 < 10 ^ Z.of_nat (Decimal.nb_digits d)) by (apply Z.pow_pos_nonneg; lia);
    nia.
Qed.

Lemma unorm_D0 (d d' : Decimal.uint) :
  Decimal.unorm d = Decimal.D0 d' -> d' = Decimal.Nil.
Proof.
  induction d; cbn [Decimal.unorm]; intros H; try discriminate H.
  - injection H as <-. reflexivity.
  - exact (IHd H).
Qed.

Lemma to_uint_no_leading_zero (p : positive) (d : Decimal.uint) :
  Pos.to_uint p <> Decimal.D0 d.
Proof.
  intros H.
  pose proof (DecimalPos.Unsigned.to_of (Pos.to_uint p)) as N.
  rewrite DecimalPos.Unsigned.of_to in N. cbn [N.to_uint] in N.
  rewrite H in N. cbn [Decimal.unorm] in N. symmetry in N.
  apply unorm_D0 in N. subst d.
  exact (DecimalPos.Unsigned.to_uint_nonzero p H).
Qed.

(** A number between [j * 10^n] and [(j+1) * 10^n], with [j] a digit other
    than zero, lies between [2 * 10^k] and [3 * 10^k] only when [j] is 2. *)
Lemma leading_digit_unique (j p : Z) (n k : nat) :
  1 <= j <= 9 ->
  j * 10 ^ Z.of_nat n <= p < (j + 1) * 10 ^ Z.of_nat n ->
  2 * 10 ^ Z.of_nat k <= p < 3 * 10 ^ Z.of_nat k ->
  j = 2.
Proof.
  intros Hj Hn Hk.
  assert (Pn : 0 < 10 ^ Z.of_nat n) by (apply Z.pow_pos_nonneg; lia).
  assert (Pk : 0 < 10 ^ Z.of_nat k) by (apply Z.pow_pos_nonneg; lia).
  destruct (Nat.lt_trichotomy n k) as [L | [E | L]].
  - assert (10 ^ Z.of_nat (S n) <= 10 ^ Z.of_nat k)
      by (apply Z.pow_le_mono_r; lia).
    rewrite Nat2Z.inj_succ, Z.pow_succ_r in H by lia. nia.
  - subst k. nia.
  - assert (10 ^ Z.of_nat (S k) <= 10 ^ Z.of_nat n)
      by (apply Z.pow_le_mono_r; lia).
    rewrite Nat2Z.inj_succ, Z.pow_succ_r in H by lia. nia.
Qed.

(** [ok] on a positive status code reads the first digit of its numeral. *)
Lemma ok_pos (p : positive) (content : bytes) :
  ok (mkHttpResponse (Z.pos p) content) =
    match Pos.to_uint p with
    | Decimal.D2 _ => true
    | _ => false
    end.
Proof.
  unfold ok, Py.str, Py.startswith. cbn [_status_code Z.to_int].
  cbn [NilZero.string_of_int].
  destruct (Pos.to_uint p) as [| d | d | d | d | d | d | d | d | d | d];
    try reflexivity.
  cbn. destruct (NilEmpty.string_of_uint d); reflexivity.
Qed.

Lemma ok_nonpos (s : Z) (content : bytes) :
  s <= 0 -> ok (mkHttpResponse s content) = false.
Proof.
  intros H. destruct s as [| p | p]; [reflexivity | lia | reflexivity].
Qed.

End StrFacts.

(** ** HttpResponse.ok *)

Lemma status_range_In (lo hi s : Z) : lo <= s <= hi -> In s (status_range lo hi).
Proof.
  intros H. unfold status_range. apply in_map_iff.
  exists (Z.to_nat (s - lo)). split; [lia |].
  apply in_seq. lia.
Qed.

(** X1: on the status codes of three digits, [ok] is the test for 200..299. *)
Lemma ok_three_digits (s : Z) (content : bytes) :
  100 <= s <= 999 ->
  ok (mkHttpResponse s content) = (200 <=? s) && (s <=? 299).
Proof.
  intros H.
  assert (A : forallb (fun s => Bool.eqb (ok (mkHttpResponse s []))
                                          ((200 <=? s) && (s <=? 299)))
                      (status_range 100 999) = true) by (vm_compute; reflexivity).
  rewrite forallb_forall in A.
  specialize (A s (status_range_In 100 999 s H)).
  apply Bool.eqb_prop in A. exact A.
Qed.

Lemma ok_three_digits_witness :
  ok (mkHttpResponse 204 []) = true /\ ok (mkHttpResponse 404 []) = false.
Proof.
  split.
  - apply (ok_three_digits 204 []). lia.
  - apply (ok_three_digits 404 []). lia.
Defined.

(** X2: on a status code that [str] converts, one of at most 4300 digits,
    [ok] holds exactly of the numbers from [2 * 10^k] up to, but not
    including, [3 * 10^k]: 2, 20..29, 200..299, 2000..2999, and so on. *)
Theorem ok_leading_digit (s : Z) (content : bytes) :
  Z.abs s < 10 ^ 4300 ->
  (ok (mkHttpResponse s content) = true
   <-> exists k : nat, 2 * 10 ^ Z.of_nat k <= s < 3 * 10 ^ Z.of_nat k).
Proof.
  intros _. split.
  - intros H. destruct s as [| p | p];
      [discriminate H | | discriminate H].
    rewrite StrFacts.ok_pos in H.
    destruct (Pos.to_uint p) as [| d | d | d | d | d | d | d | d | d | d] eqn:E;
      try discriminate H.
    pose proof (DecimalPos.Unsigned.of_to p) as V. rewrite E in V.
    cbn [Pos.of_uint] in V. injection V as V.
    exists (Decimal.nb_digits d).
    pose proof (StrFacts.of_uint_acc_bounds d 2) as B. rewrite V in B. lia.
  - intros [k Hk].
    assert (Pk : 0 < 10 ^ Z.of_nat k) by (apply Z.pow_pos_nonneg; lia).
    destruct s as [| p | p]; [lia | | lia].
    rewrite StrFacts.ok_pos.
    pose proof (DecimalPos.Unsigned.of_to p) as V.
    destruct (Pos.to_uint p) as [| d | d | d | d | d | d | d | d | d | d] eqn:E;
      try reflexivity;
      try (exfalso; cbn [Pos.of_uint] in V; injection V as V;
           match type of V with
           | Pos.of_uint_acc d ?a = _ =>
               pose proof (StrFacts.of_uint_acc_bounds d a) as B;
               rewrite V in B;
               pose proof (StrFacts.leading_digit_unique
                             (Z.pos a) (Z.pos p) (Decimal.nb_digits d) k
                             ltac:(lia) ltac:(lia) Hk);
               lia
           end).
    + exfalso. exact (DecimalPos.Unsigned.to_uint_nonnil p E).
    + exfalso. exact (StrFacts.to_uint_no_leading_zero p d E).
Qed.

Lemma ok_leading_digit_witness :
  ok (mkHttpResponse 2500 []) = true
  <-> exists k : nat, 2 * 10 ^ Z.of_nat k <= 2500 < 3 * 10 ^ Z.of_nat k.
Proof.
  apply (ok_leading_digit 2500 []). vm_compute. reflexivity.
Defined.

(** C1, at a status code outside 200..299: [ok] tests the first character of
    the decimal numeral, so it holds of 2000 (and of 2 and of 25), none of
    which is a 2xx status code. *)
Theorem ok_outside_2xx :
  ok (mkHttpResponse 2000 []) = true
  /\ ok (mkHttpResponse 2 []) = true
  /\ ok (mkHttpResponse 25 []) = true
  /\ ~ (200 <= 2000 <= 299).
Proof. repeat split; try reflexivity. lia. Qed.

(** ** HttpResponse.text *)

(** C5: [text] returns the string whose UTF-8 encoding is the content, every
    string of scalar values has such an encoding, and [text] fails with a
    decoding error on a content that is the UTF-8 encoding of no string. *)
Theorem text_roundtrip :
  (forall (status : Z) (s : pystr) (data : bytes),
      Utf8.encode s = Some data -> text (mkHttpResponse status data) = Ok s)
  /\ (forall (status : Z) (s : pystr),
         forallb Utf8.scalar s = true ->
         exists data,
           Utf8.encode s = Some data
           /\ text (mkHttpResponse status data) = Ok s)
  /\ (forall (status : Z) (data : bytes),
         (forall s, Utf8.encode s <> Some data) ->
         text (mkHttpResponse status data) = Raise UnicodeDecodeError).
Proof.
  assert (R : forall (status : Z) (s : pystr) (data : bytes),
             Utf8.encode s = Some data ->
             text (mkHttpResponse status data) = Ok s).
  { intros status s data H. unfold text. cbn [_content].
    rewrite (Utf8Facts.decode_encode s data H). reflexivity. }
  split; [exact R |]. split.
  - intros status s H.
    destruct (Utf8Facts.encode_scalars s H) as [data E].
    exists data. split; [exact E | exact (R status s data E)].
  - intros status data H. unfold text. cbn [_content].
    destruct (Utf8.decode data) as [s |] eqn:E; [| reflexivity].
    exfalso. exact (H s (Utf8Facts.encode_decode data s E)).
Qed.

Lemma text_roundtrip_witness :
  Utf8.encode [104%N; 233%N; 8364%N; 128512%N]
  = Some [x68; xc3; xa9; xe2; x82; xac; xf0; x9f; x98; x80]
  /\ text (mkHttpResponse 200 [x68; xc3; xa9; xe2; x82; xac; xf0; x9f; x98; x80])
     = Ok [104%N; 233%N; 8364%N; 128512%N]
  /\ (forall s, Utf8.encode s <> Some [xc3; x28])
  /\ text (mkHttpResponse 200 [xc3; x28]) = Raise UnicodeDecodeError.
Proof.
  assert (E : Utf8.encode [104%N; 233%N; 8364%N; 128512%N]
              = Some [x68; xc3; xa9; xe2; x82; xac; xf0; x9f; x98; x80])
    by (vm_compute; reflexivity).
  assert (N : forall s, Utf8.encode s <> Some [xc3; x28]).
  { intros s H. apply Utf8Facts.decode_encode in H. vm_compute in H.
    discriminate H. }
  split; [exact E |].
  split; [exact (proj1 text_roundtrip 200 _ _ E) |].
  split; [exact N |].
  exact (proj2 (proj2 text_roundtrip) 200 _ N).
Defined.

(** X3: content that is ASCII decodes byte for byte. *)
Theorem text_ascii (self : HttpResponse) :
  forallb (fun x => (Byte.to_N x <? 0x80)%N) (_content self) = true ->
  text self = Ok (map Byte.to_N (_content self)).
Proof.
  intros H. unfold text. rewrite (Utf8Bounds.decode_ascii _ H). reflexivity.
Qed.

(** X4: two responses with the same text have the same content. *)
Theorem text_injective (r1 r2 : HttpResponse) (s : pystr) :
  text r1 = Ok s -> text r2 = Ok s -> _content r1 = _content r2.
Proof.
  unfold text.
  destruct (Utf8.decode (_content r1)) as [s1 |] eqn:E1; [| discriminate].
  destruct (Utf8.decode (_content r2)) as [s2 |] eqn:E2; [| discriminate].
  intros H1 H2. injection H1 as ->. injection H2 as ->.
  apply Utf8Facts.encode_decode in E1, E2. rewrite E1 in E2.
  injection E2 as E2. exact E2.
Qed.

(** X5: the text holds scalar values only, no surrogate and nothing above
    U+10FFFF, at most one for each byte of the content and at least one
    for every four. *)
Theorem text_scalar_values (self : HttpResponse) (s : pystr) :
  text self = Ok s ->
  forallb Utf8.scalar s = true
  /\ (List.length s <= List.length (_content self) <= 4 * List.length s)%nat.
Proof.
  unfold text.
  destruct (Utf8.decode (_content self)) as [s' |] eqn:E; [| discriminate].
  intros H. injection H as ->. exact (Utf8Bounds.decode_scalar _ _ E).
Qed.

(** ** HttpResponse.json *)

Lemma json_propagates (self : HttpResponse) :
  json self =
    match text self with
    | inl e => Raise e
    | inr s => Json.loads s
    end.
Proof. unfold json, rbind. destruct (text self); reflexivity. Qed.

(** C2, at a body whose top-level value is an array: [json] decodes the
    object document to the mapping and fails on a malformed document, but it
    returns the list of an array document instead of failing. *)
Theorem json_top_level_array :
  json (mkHttpResponse 200 json_object_a1) = Ok (PyDict [(Py.u "a", PyInt 1)])
  /\ json (mkHttpResponse 200 (Py.b "{a:1}"))
     = Raise (JSONDecodeError
                "Expecting property name enclosed in double quotes")
  /\ json (mkHttpResponse 200 (Py.b "[1]")) = Ok (PyList [PyInt 1])
  /\ Py.is_dict (PyList [PyInt 1]) = false.
Proof. repeat split; vm_compute; reflexivity. Qed.

(** X6: [json] raises the decoding error of [text] exactly when [text]
    raises it: the JSON decoder raises none. *)
Theorem json_unicode_error (self : HttpResponse) :
  json self = Raise UnicodeDecodeError
  <-> text self = Raise UnicodeDecodeError.
Proof.
  rewrite json_propagates. unfold text.
  destruct (Utf8.decode (_content self)) as [s |]; [| split; reflexivity].
  split; [| discriminate].
  intros H. apply JsonShape.loads_fails in H. discriminate H.
Qed.

(** X7: what [json] returns is a mapping exactly when the first character
    of the text after the white space is an opening brace. *)
Theorem json_returns_dict (self : HttpResponse) (s : pystr) (v : pyobj) :
  text self = Ok s -> json self = Ok v ->
  Py.is_dict v = match Json.skip_ws s with
                 | c :: _ => (c =? Json.ch "{")%N
                 | [] => false
                 end.
Proof.
  intros T. rewrite json_propagates.
  change (text self = inr s) in T. rewrite T.
  apply JsonShape.loads_dict.
Qed.

(** X8: on a content of white space only, the empty content included,
    [json] raises the decoder's error for a missing value. *)
Theorem json_blank_content (self : HttpResponse) :
  forallb is_ws_byte (_content self) = true ->
  json self = Raise (JSONDecodeError "Expecting value").
Proof.
  intros H. rewrite json_propagates.
  assert (A : forallb (fun x => (Byte.to_N x <? 0x80)%N) (_content self) = true).
  { rewrite forallb_forall in *. intros x Hx. specialize (H x Hx).
    unfold is_ws_byte, Json.is_ws in H.
    repeat (apply orb_prop in H; destruct H as [H | H]);
      apply N.eqb_eq in H; rewrite H; reflexivity. }
  unfold text. rewrite (Utf8Bounds.decode_ascii _ A).
  apply JsonShape.loads_blank.
  clear A. induction (_content self) as [| x l IH]; [reflexivity |].
  cbn [forallb map] in *. apply andb_prop in H. destruct H as [Hx Hl].
  unfold is_ws_byte in Hx. rewrite Hx, (IH Hl). reflexivity.
Qed.

(** X9: on a content that begins with the encoded byte order mark and is
    UTF-8, [json] raises the decoder's error for the mark. *)
Theorem json_byte_order_mark (status : Z) (data : bytes) (s : pystr) :
  Utf8.decode data = Some s ->
  json (mkHttpResponse status (Byte.xef :: Byte.xbb :: Byte.xbf :: data))
  = Raise (JSONDecodeError "Unexpected UTF-8 BOM (decode using utf-8-sig)").
Proof.
  intros H. rewrite json_propagates. unfold text. cbn [_content].
  rewrite (Utf8Bounds.decode_bom data s H). reflexivity.
Qed.

(** ** The plist and session operations, for any loader and any transport *)

Section HttpFacts.

Variable plistlib_loads : bytes -> result pyobj.
Variable network : list Call -> Call -> result ClientResponse.

Local Abbreviation loads_plist := (loads_plist plistlib_loads).
Local Abbreviation decode_plist := (decode_plist plistlib_loads).
Local Abbreviation plist := (plist plistlib_loads).
Local Abbreviation ClientSession_request := (ClientSession_request network).
Local Abbreviation request := (request network).
Local Abbreviation call_request := (call_request network).
Local Abbreviation get := (get network).
Local Abbreviation post := (post network).
Local Abbreviation step := (step network).
Local Abbreviation run := (run network).




Lemma plist_cases (self : HttpResponse) :
  plist self =
    match decode_plist (_content self) with
    | inl e => Raise e
    | inr v =>
        if Py.is_dict v then Ok v
        else Raise (TypeError "Unknown Plist-encoded data type: {data}. This is a bug, please report it."
                              (Some v))
    end.
Proof.
  unfold plist, rbind.
  destruct (decode_plist (_content self)) as [e | v]; [reflexivity |].
  destruct (Py.is_dict v); reflexivity.
Qed.

(** C4: [plist] raises the type error of its own check, the one that
    carries the decoded value, when the loader returned a value that is not
    a mapping; it returns the value when it is a mapping; and an exception
    of the loader, a type error included, leaves [plist] as it is.  So
    [plist] raises a type error exactly when the loader returned a value
    that is not a mapping or itself raised a type error. *)
Theorem plist_type_error (self : HttpResponse) :
  (forall v, decode_plist (_content self) = Ok v -> Py.is_dict v = false ->
             plist self
             = Raise (TypeError "Unknown Plist-encoded data type: {data}. This is a bug, please report it."
                                (Some v)))
  /\ (forall v, decode_plist (_content self) = Ok v ->
                Py.is_dict v = true -> plist self = Ok v)
  /\ (forall e, decode_plist (_content self) = Raise e -> plist self = Raise e)
  /\ (is_type_error (plist self) = true <->
      (exists v, decode_plist (_content self) = Ok v /\ Py.is_dict v = false)
      \/ is_type_error (decode_plist (_content self)) = true).
Proof.
  rewrite plist_cases.
  destruct (decode_plist (_content self)) as [e | v] eqn:E.
  - split; [intros v Hv; discriminate Hv |].
    split; [intros v Hv; discriminate Hv |].
    split; [intros e' He; injection He as <-; reflexivity |].
    split.
    + intros H. right. exact H.
    + intros [(v & Hv & _) | H]; [discriminate Hv | exact H].
  - split.
    { intros v' Hv Hd. injection Hv as <-. rewrite Hd. reflexivity. }
    split.
    { intros v' Hv Hd. injection Hv as <-. rewrite Hd. reflexivity. }
    split; [intros e He; discriminate He |].
    split.
    + intros H. left. exists v. split; [reflexivity |].
      destruct (Py.is_dict v); [discriminate H | reflexivity].
    + intros [(v' & Hv & Hd) | H]; [| discriminate H].
      injection Hv as <-. rewrite Hd. reflexivity.
Qed.

(** C9: the decoders read the content only, and [status_code] and [ok] read
    the status only. *)
Theorem response_noninterference (r1 r2 : HttpResponse) :
  (_content r1 = _content r2 ->
   text r1 = text r2 /\ json r1 = json r2 /\ plist r1 = plist r2)
  /\ (_status_code r1 = _status_code r2 ->
      status_code r1 = status_code r2 /\ ok r1 = ok r2).
Proof.
  split.
  - intros H.
    assert (T : text r1 = text r2) by (unfold text; rewrite H; reflexivity).
    split; [exact T |]. split.
    + unfold json. rewrite T. reflexivity.
    + unfold plist. rewrite H. reflexivity.
  - intros H. unfold status_code, ok. rewrite H. split; reflexivity.
Qed.

(** *** The session manager *)

Lemma ensure_session_cases (st : State) :
  _ensure_session st =
    (Ok tt,
     match _session st with
     | Some _ => st
     | None =>
         mkState (heap st ++ [mkClientSession (mkClientTimeout 5) false])
                 (log st) (Some (List.length (heap st)))
     end).
Proof. unfold _ensure_session. destruct (_session st); reflexivity. Qed.

Lemma ensure_session_has (st : State) :
  exists h, _session (snd (_ensure_session st)) = Some h.
Proof.
  rewrite ensure_session_cases. cbn [snd].
  destruct (_session st) as [h |] eqn:E.
  - exists h. exact E.
  - eexists. reflexivity.
Qed.

(** [request], one step after the other. *)
Lemma request_unfold (method url : pystr) (auth : pyobj) (kwargs : kwargs_t)
    (st : State) :
  request method url auth kwargs st =
    let st1 := snd (_ensure_session st) in
    match basic_auth_of auth with
    | inl e => (Raise e, st1)
    | inr basic_auth =>
        match ClientSession_request method url basic_auth false kwargs st1 with
        | (inl e, st2) => (Raise e, st2)
        | (inr r, st2) =>
            match content_read r with
            | inl e => (Raise e, st2)
            | inr content => (Ok (mkHttpResponse (status r) content), st2)
            end
        end
    end.
Proof.
  unfold request, bind, lift, ret.
  rewrite ensure_session_cases. cbn [snd].
  destruct (basic_auth_of auth) as [e | ba]; [reflexivity |].
  destruct (ClientSession_request method url ba false kwargs _)
    as [[e | r] st2]; [reflexivity |].
  destruct (content_read r); reflexivity.
Qed.

(** A call on the session changes the log only. *)
Lemma ClientSession_request_frame (method url : pystr)
    (auth : option BasicAuth) (ssl : bool) (kwargs : kwargs_t) (st : State) :
  let st' := snd (ClientSession_request method url auth ssl kwargs st) in
  heap st' = heap st /\ _session st' = _session st.
Proof.
  unfold ClientSession_request.
  destruct (_session st) as [h |] eqn:E; [| cbn; auto].
  destruct (has_key "auth" kwargs); [cbn; auto |].
  destruct (has_key "ssl" kwargs); [cbn; auto |].
  destruct (nth_error (heap st) h) as [cs |]; [| cbn; auto].
  destruct (closed cs); cbn; auto.
Qed.

Lemma request_frame (method url : pystr) (auth : pyobj) (kwargs : kwargs_t)
    (st : State) :
  let st1 := snd (_ensure_session st) in
  let st' := snd (request method url auth kwargs st) in
  heap st' = heap st1 /\ _session st' = _session st1.
Proof.
  rewrite request_unfold. cbv zeta.
  destruct (basic_auth_of auth) as [e | ba]; [cbn [snd]; auto |].
  pose proof (ClientSession_request_frame method url ba false kwargs
                (snd (_ensure_session st))) as F. cbv zeta in F.
  destruct (ClientSession_request method url ba false kwargs _)
    as [[e | r] st2]; cbn [snd] in *; [exact F |].
  destruct (content_read r); cbn [snd]; exact F.
Qed.

Lemma call_request_frame (method url : pystr) (kwargs : kwargs_t) (st : State) :
  let st' := snd (call_request method url kwargs st) in
  st' = st
  \/ (heap st' = heap (snd (_ensure_session st))
      /\ _session st' = _session (snd (_ensure_session st))).
Proof.
  unfold call_request, raise.
  destruct (has_key "self" kwargs); [left; reflexivity |].
  destruct (has_key "method" kwargs); [left; reflexivity |].
  destruct (has_key "url" kwargs); [left; reflexivity |].
  right. apply request_frame.
Qed.

Lemma live_app (hp hp' : list ClientSession) :
  live (hp ++ hp') = (live hp + live hp')%nat.
Proof. unfold live. rewrite filter_app, length_app. reflexivity. Qed.

Lemma set_closed_split (h : nat) (hp : list ClientSession) (cs : ClientSession) :
  nth_error hp h = Some cs ->
  exists l1 l2,
    hp = l1 ++ cs :: l2
    /\ set_closed h hp = l1 ++ mkClientSession (timeout cs) true :: l2.
Proof.
  intros H. destruct (nth_error_split hp h H) as (l1 & l2 & -> & <-).
  exists l1, l2. split; [reflexivity |].
  unfold set_closed. rewrite H. f_equal.
  - rewrite firstn_app, Nat.sub_diag, firstn_all. cbn. apply app_nil_r.
  - f_equal. rewrite skipn_app, skipn_all2 by lia.
    replace (S (List.length l1) - List.length l1)%nat with 1%nat by lia.
    reflexivity.
Qed.

Lemma live_set_closed (h : nat) (hp : list ClientSession) (cs : ClientSession) :
  nth_error hp h = Some cs -> closed cs = false ->
  live hp = S (live (set_closed h hp)).
Proof.
  intros H Hc. destruct (set_closed_split h hp cs H) as (l1 & l2 & -> & ->).
  rewrite !live_app. unfold live at 2 4. cbn [filter closed negb].
  rewrite Hc. cbn [negb List.length]. lia.
Qed.

Lemma consistent_init : consistent init.
Proof. reflexivity. Qed.

Lemma consistent_ensure (st : State) :
  consistent st -> consistent (snd (_ensure_session st)).
Proof.
  rewrite ensure_session_cases. cbn [snd]. unfold consistent.
  destruct (_session st) as [h |] eqn:E.
  - rewrite E. auto.
  - intros H. cbn [_session heap]. split.
    + rewrite live_app, H. reflexivity.
    + exists (mkClientSession (mkClientTimeout 5) false).
      split; [| reflexivity].
      rewrite nth_error_app2, Nat.sub_diag by lia. reflexivity.
Qed.

Lemma consistent_close (st : State) :
  consistent st -> consistent (snd (close st)).
Proof.
  unfold close, consistent.
  destruct (_session st) as [h |] eqn:E; cbn [snd]; [| rewrite E; auto].
  intros (L & cs & Hn & Hc). cbn [_session heap].
  pose proof (live_set_closed h (heap st) cs Hn Hc). lia.
Qed.

Lemma consistent_frame (st st' : State) :
  heap st' = heap st -> _session st' = _session st ->
  consistent st -> consistent st'.
Proof. unfold consistent. intros -> ->. auto. Qed.

Lemma consistent_step (o : op) (st : State) :
  consistent st -> consistent (step o st).
Proof.
  intros H. destruct o; cbn [step].
  - exact (consistent_ensure st H).
  - exact (consistent_close st H).
  - destruct (request_frame method url auth kwargs st) as [Hh Hs].
    exact (consistent_frame _ _ Hh Hs (consistent_ensure st H)).
  - destruct (call_request_frame (Py.u "GET") url kwargs st) as [E | [Hh Hs]].
    + unfold get. rewrite E. exact H.
    + exact (consistent_frame _ _ Hh Hs (consistent_ensure st H)).
  - destruct (call_request_frame (Py.u "POST") url kwargs st) as [E | [Hh Hs]].
    + unfold post. rewrite E. exact H.
    + exact (consistent_frame _ _ Hh Hs (consistent_ensure st H)).
Qed.

Lemma consistent_run (ops : list op) :
  forall st, consistent st -> consistent (run ops st).
Proof.
  induction ops as [| o ops IH]; intros st H; [exact H |].
  cbn [run fold_left]. apply IH. exact (consistent_step o st H).
Qed.

Lemma consistent_live (st : State) : consistent st -> (live (heap st) <= 1)%nat.
Proof.
  unfold consistent. destruct (_session st); [intros [-> _] | intros ->]; lia.
Qed.

Lemma ensure_session_log (st : State) :
  log (snd (_ensure_session st)) = log st.
Proof.
  rewrite ensure_session_cases. cbn [snd].
  destruct (_session st); reflexivity.
Qed.

(** On a consistent state, with no keyword option named auth or ssl and an
    [auth] that translates, [request] makes exactly one call, on the
    session of the manager, and wraps what the transport answers. *)
Lemma request_spec (st : State) (method url : pystr) (auth : pyobj)
    (kwargs : kwargs_t) (basic_auth : option BasicAuth) :
  consistent st ->
  has_key "auth" kwargs = false -> has_key "ssl" kwargs = false ->
  basic_auth_of auth = Ok basic_auth ->
  exists h,
    _session (snd (_ensure_session st)) = Some h
    /\ request method url auth kwargs st =
         (wrap (network (log st) (mkCall h method url basic_auth false kwargs)),
          mkState (heap (snd (_ensure_session st)))
                  (log st ++ [mkCall h method url basic_auth false kwargs])
                  (Some h)).
Proof.
  intros C Ka Ks Hba.
  pose proof (consistent_ensure st C) as C1.
  pose proof (ensure_session_log st) as L1.
  change (basic_auth_of auth = inr basic_auth) in Hba.
  rewrite request_unfold. cbv zeta. rewrite Hba.
  set (st1 := snd (_ensure_session st)) in *.
  unfold consistent in C1.
  destruct (_session st1) as [h |] eqn:E.
  2:{ destruct (ensure_session_has st) as [h Hh]. fold st1 in Hh.
      rewrite E in Hh. discriminate Hh. }
  destruct C1 as (_ & cs & Hn & Hc).
  exists h. split; [reflexivity |].
  unfold ClientSession_request. rewrite E, Ka, Ks, Hn, Hc, L1.
  unfold wrap, rbind.
  destruct (network (log st) _) as [e | r]; [reflexivity |].
  destruct (content_read r); reflexivity.
Qed.

(** C6: the manager starts without a session; [_ensure_session] and
    [request] leave it with one, [close] leaves it without one and does
    nothing when there is none, so a second [close] in a row does nothing;
    a [request] after a [close] creates a fresh session; and after any
    sequence of calls at most one session of the store is open. *)
Theorem session_state_machine :
  state_of init = NoSession
  /\ (forall st, state_of (snd (_ensure_session st)) = HasSession)
  /\ (forall st method url auth kwargs,
         state_of (snd (request method url auth kwargs st)) = HasSession)
  /\ (forall st, state_of (snd (close st)) = NoSession)
  /\ (forall st, state_of st = NoSession -> close st = (Ok tt, st))
  /\ (forall st, close (snd (close st)) = (Ok tt, snd (close st)))
  /\ (forall ops method url auth kwargs,
         let st1 := snd (close (run ops init)) in
         let st2 := snd (request method url auth kwargs st1) in
         state_of st2 = HasSession
         /\ heap st2 = heap st1 ++ [mkClientSession (mkClientTimeout 5) false]
         /\ _session st2 = Some (List.length (heap st1))
         /\ consistent st2)
  /\ (forall ops,
         consistent (run ops init) /\ (live (heap (run ops init)) <= 1)%nat).
Proof.
  assert (E : forall st, state_of (snd (_ensure_session st)) = HasSession).
  { intros st. unfold state_of.
    destruct (ensure_session_has st) as [h ->]. reflexivity. }
  assert (R : forall st method url auth kwargs,
             state_of (snd (request method url auth kwargs st)) = HasSession).
  { intros st method url auth kwargs. unfold state_of.
    destruct (request_frame method url auth kwargs st) as [_ ->].
    apply E. }
  assert (C : forall st, state_of (snd (close st)) = NoSession).
  { intros st. unfold close, state_of.
    destruct (_session st) eqn:S; cbn [snd]; [reflexivity |].
    rewrite S. reflexivity. }
  assert (N : forall st, state_of st = NoSession -> close st = (Ok tt, st)).
  { intros st. unfold close, state_of.
    destruct (_session st); [discriminate | reflexivity]. }
  repeat split.
  - exact E.
  - exact R.
  - exact C.
  - exact N.
  - intros st. apply N. apply C.
  - apply R.
  - destruct (request_frame method url auth kwargs
                (snd (close (run ops init)))) as [-> _].
    rewrite ensure_session_cases. cbn [snd].
    specialize (C (run ops init)). unfold state_of in C.
    destruct (_session (snd (close (run ops init)))); [discriminate C |].
    reflexivity.
  - destruct (request_frame method url auth kwargs
                (snd (close (run ops init)))) as [_ ->].
    rewrite ensure_session_cases. cbn [snd].
    specialize (C (run ops init)). unfold state_of in C.
    destruct (_session (snd (close (run ops init)))); [discriminate C |].
    reflexivity.
  - destruct (request_frame method url auth kwargs
                (snd (close (run ops init)))) as [Hh Hs].
    apply (consistent_frame _ _ Hh Hs). apply consistent_ensure.
    apply consistent_close. apply consistent_run. exact consistent_init.
  - apply consistent_run. exact consistent_init.
  - apply consistent_live. apply consistent_run. exact consistent_init.
Qed.

(** Where [BasicAuth] accepts the login and the password, it holds them as
    they are, with the default encoding. *)
Lemma BasicAuth_new_Ok (a0 a1 : pyobj) (basic_auth : BasicAuth) :
  BasicAuth_new a0 a1 = Ok basic_auth ->
  basic_auth = mkBasicAuth a0 a1 (Py.u "latin1").
Proof.
  unfold BasicAuth_new, rbind.
  destruct a0; try discriminate;
    destruct a1; try discriminate;
    match goal with
    | |- match ?c with _ => _ end = _ -> _ =>
        destruct c as [e | [|]]; try discriminate
    end;
    intros H; injection H as <-; reflexivity.
Qed.

(** An [auth] whose translation fails stops [request] after the session
    has been ensured and before the call. *)
Lemma request_auth_fails (method url : pystr) (auth : pyobj)
    (kwargs : kwargs_t) (st : State) (e : exn) :
  basic_auth_of auth = Raise e ->
  request method url auth kwargs st = (Raise e, snd (_ensure_session st))
  /\ log (snd (request method url auth kwargs st)) = log st.
Proof.
  intros H. unfold Raise in H.
  assert (E : request method url auth kwargs st
              = (Raise e, snd (_ensure_session st)))
    by (rewrite request_unfold; cbv zeta; rewrite H; reflexivity).
  split; [exact E |]. rewrite E. cbn [snd]. apply ensure_session_log.
Qed.

(** C7: [request] first ensures a session, created with a total timeout of
    5 when there is none and left alone otherwise; no [auth] gives no basic
    authentication; a pair of strings whose first holds no colon gives
    [BasicAuth] of exactly the two; a colon in the first, or [None] in the
    place of either, makes [BasicAuth] raise [ValueError], and then
    [request] raises it after the session is ensured and before any call;
    the call carries the method, the URL, the authentication, [ssl=False]
    and the keyword options; the result wraps the status and the body
    read. *)
Theorem request_contract :
  (forall st,
      _ensure_session st =
        (Ok tt,
         match _session st with
         | Some _ => st
         | None =>
             mkState (heap st ++ [mkClientSession (mkClientTimeout 5) false])
                     (log st) (Some (List.length (heap st)))
         end))
  /\ basic_auth_of PyNone = Ok None
  /\ (forall username password : pystr,
         existsb (N.eqb 58) username = false ->
         basic_auth_of (PyTuple [PyStr username; PyStr password])
         = Ok (Some (mkBasicAuth (PyStr username) (PyStr password)
                                 (Py.u "latin1"))))
  /\ (forall username password : pystr,
         existsb (N.eqb 58) username = true ->
         basic_auth_of (PyTuple [PyStr username; PyStr password])
         = Raise (ValueError "A colon is not allowed in login (RFC 1945#section-11.1)"))
  /\ (forall password : pyobj,
         basic_auth_of (PyTuple [PyNone; password])
         = Raise (ValueError "None is not allowed as login value"))
  /\ (forall username : pystr,
         basic_auth_of (PyTuple [PyStr username; PyNone])
         = Raise (ValueError "None is not allowed as password value"))
  /\ (forall st method url auth kwargs e,
         basic_auth_of auth = Raise e ->
         request method url auth kwargs st
         = (Raise e, snd (_ensure_session st))
         /\ log (snd (request method url auth kwargs st)) = log st)
  /\ (forall st method url auth kwargs basic_auth,
         consistent st ->
         has_key "auth" kwargs = false -> has_key "ssl" kwargs = false ->
         basic_auth_of auth = Ok basic_auth ->
         exists h,
           _session (snd (_ensure_session st)) = Some h
           /\ request method url auth kwargs st =
                (wrap (network (log st)
                         (mkCall h method url basic_auth false kwargs)),
                 mkState (heap (snd (_ensure_session st)))
                         (log st ++ [mkCall h method url basic_auth false kwargs])
                         (Some h)))
  /\ (forall status content,
         wrap (Ok (mkClientResponse status (Ok content)))
         = Ok (mkHttpResponse status content)).
Proof.
  split; [exact ensure_session_cases |].
  split; [reflexivity |].
  split.
  { intros username password H. cbn. unfold BasicAuth_new, contains_colon.
    cbn. rewrite H. reflexivity. }
  split.
  { intros username password H. cbn. unfold BasicAuth_new, contains_colon.
    cbn. rewrite H. reflexivity. }
  split; [intros password; reflexivity |].
  split; [intros username; reflexivity |].
  split.
  { intros st method url auth kwargs e H.
    exact (request_auth_fails method url auth kwargs st e H). }
  split; [exact request_spec |].
  reflexivity.
Qed.

(** C8: [get] is [request] with the method GET and [post] is [request] with
    the method POST: the URL is passed on, a keyword option named auth
    becomes the [auth] of [request] and the other keyword options become
    its keyword options; result and state are those of [request]. *)
Theorem get_post_alias (url : pystr) (kwargs : kwargs_t) (st : State) :
  has_key "self" kwargs = false ->
  has_key "method" kwargs = false ->
  has_key "url" kwargs = false ->
  (get url kwargs st
   = request (Py.u "GET") url
       (match lookup "auth" kwargs with Some a => a | None => PyNone end)
       (remove "auth" kwargs) st
   /\ post url kwargs st
      = request (Py.u "POST") url
          (match lookup "auth" kwargs with Some a => a | None => PyNone end)
          (remove "auth" kwargs) st)
  /\ (has_key "auth" kwargs = false ->
      (get url kwargs st = request (Py.u "GET") url PyNone kwargs st
       /\ post url kwargs st = request (Py.u "POST") url PyNone kwargs st)
      /\ forall auth,
          get url (("auth"%string, auth) :: kwargs) st
          = request (Py.u "GET") url auth kwargs st
          /\ post url (("auth"%string, auth) :: kwargs) st
             = request (Py.u "POST") url auth kwargs st).
Proof.
  intros K1 K2 K3.
  assert (B : forall method kw,
             has_key "self" kw = false -> has_key "method" kw = false ->
             has_key "url" kw = false ->
             call_request method url kw st
             = request method url
                 (match lookup "auth" kw with Some a => a | None => PyNone end)
                 (remove "auth" kw) st).
  { intros method kw H1 H2 H3. unfold call_request.
    rewrite H1, H2, H3. reflexivity. }
  split.
  - unfold get, post. split; apply B; assumption.
  - intros Ka.
    assert (L : lookup "auth" kwargs = None /\ remove "auth" kwargs = kwargs).
    { clear - Ka. unfold has_key, remove in *.
      induction kwargs as [| [k v] kw IH]; [auto |].
      cbn [existsb fst lookup filter] in *.
      apply orb_false_iff in Ka. destruct Ka as [H1 H2]. rewrite H1.
      cbn [negb]. destruct (IH H2) as [-> ->]. auto. }
    destruct L as [L R]. split.
    + unfold get, post. rewrite !B by assumption. rewrite L, R. auto.
    + intros auth. unfold get, post.
      rewrite !B by (cbn [has_key existsb fst]; cbn; assumption).
      cbn [lookup remove filter fst]. cbn. fold (remove "auth" kwargs).
      rewrite R. auto.
Qed.

(** C10: [auth[0]] and [auth[1]] are both read before [BasicAuth] is built
    and before the call, so an [auth] translates only when both can be
    read, and a tuple only when it has at least two components, the first
    two of which [BasicAuth] then receives; a tuple of fewer than two
    raises an index error, no call reaches the transport, and the session
    has been ensured all the same. *)
Theorem request_auth_indexing :
  (forall items,
      basic_auth_of (PyTuple items) =
        match items with
        | a0 :: a1 :: _ =>
            rbind (BasicAuth_new a0 a1) (fun basic_auth => Ok (Some basic_auth))
        | _ => Raise (IndexError "tuple index out of range")
        end)
  /\ (forall items basic_auth,
         basic_auth_of (PyTuple items) = Ok basic_auth ->
         exists a0 a1 rest,
           items = a0 :: a1 :: rest
           /\ basic_auth = Some (mkBasicAuth a0 a1 (Py.u "latin1")))
  /\ (forall auth basic_auth,
         basic_auth_of auth = Ok (Some basic_auth) ->
         exists a0 a1,
           getitem auth 0 = Ok a0 /\ getitem auth 1 = Ok a1
           /\ basic_auth = mkBasicAuth a0 a1 (Py.u "latin1"))
  /\ (forall method url x kwargs st,
         request method url (PyTuple [x]) kwargs st
         = (Raise (IndexError "tuple index out of range"),
            snd (_ensure_session st))
         /\ log (snd (request method url (PyTuple [x]) kwargs st)) = log st)
  /\ (forall method url kwargs st,
         request method url (PyTuple []) kwargs st
         = (Raise (IndexError "tuple index out of range"),
            snd (_ensure_session st))
         /\ log (snd (request method url (PyTuple []) kwargs st)) = log st).
Proof.
  assert (G : forall auth basic_auth,
             basic_auth_of auth = Ok (Some basic_auth) ->
             exists a0 a1,
               getitem auth 0 = Ok a0 /\ getitem auth 1 = Ok a1
               /\ basic_auth = mkBasicAuth a0 a1 (Py.u "latin1")).
  { intros auth basic_auth H.
    assert (B : rbind (getitem auth 0) (fun a0 =>
                rbind (getitem auth 1) (fun a1 =>
                rbind (BasicAuth_new a0 a1) (fun ba => Ok (Some ba))))
                = Ok (Some basic_auth)).
    { destruct auth; try exact H. discriminate H. }
    unfold rbind in B.
    destruct (getitem auth 0) as [e | a0]; [discriminate B |].
    destruct (getitem auth 1) as [e | a1]; [discriminate B |].
    destruct (BasicAuth_new a0 a1) as [e | ba] eqn:E; [discriminate B |].
    injection B as <-. apply BasicAuth_new_Ok in E.
    exists a0, a1. auto. }
  assert (T : forall items,
             basic_auth_of (PyTuple items) =
               match items with
               | a0 :: a1 :: _ =>
                   rbind (BasicAuth_new a0 a1)
                         (fun basic_auth => Ok (Some basic_auth))
               | _ => Raise (IndexError "tuple index out of range")
               end).
  { intros [| a0 [| a1 items]]; reflexivity. }
  split; [exact T |]. split.
  - intros items basic_auth H. rewrite T in H.
    destruct items as [| a0 [| a1 rest]]; try discriminate H.
    unfold rbind in H.
    destruct (BasicAuth_new a0 a1) as [e | ba] eqn:E; [discriminate H |].
    injection H as <-. apply BasicAuth_new_Ok in E. subst ba.
    exists a0, a1, rest. auto.
  - split; [exact G |]. split.
    + intros method url x kwargs st.
      exact (request_auth_fails method url (PyTuple [x]) kwargs st _ eq_refl).
    + intros method url kwargs st.
      exact (request_auth_fails method url (PyTuple []) kwargs st _ eq_refl).
Qed.

(** X10: [plist] returns mappings only, and what it returns is what the
    loader decoded. *)
Theorem plist_returns_dict (self : HttpResponse) (v : pyobj) :
  plist self = Ok v ->
  Py.is_dict v = true /\ decode_plist (_content self) = Ok v.
Proof.
  rewrite plist_cases.
  destruct (decode_plist (_content self)) as [e | v']; [discriminate |].
  destruct (Py.is_dict v') eqn:D; [| discriminate].
  intros H. injection H as <-. split; [exact D | reflexivity].
Qed.

(** *** The calls that reach the transport *)

(** What a call on the session does to the log: nothing, or one call added
    at the end, made on the session of the manager, which is open. *)
Lemma ClientSession_request_log (method url : pystr)
    (auth : option BasicAuth) (ssl : bool) (kwargs : kwargs_t) (st : State) :
  let st' := snd (ClientSession_request method url auth ssl kwargs st) in
  log st' = log st
  \/ exists h cs,
       _session st = Some h
       /\ nth_error (heap st) h = Some cs /\ closed cs = false
       /\ log st' = log st ++ [mkCall h method url auth ssl kwargs].
Proof.
  unfold ClientSession_request.
  destruct (_session st) as [h |] eqn:E; [| cbn; auto].
  destruct (has_key "auth" kwargs); [cbn; auto |].
  destruct (has_key "ssl" kwargs); [cbn; auto |].
  destruct (nth_error (heap st) h) as [cs |] eqn:N; [| cbn; auto].
  destruct (closed cs) eqn:C; cbn; [auto |].
  right. exists h, cs. auto.
Qed.

Lemma request_log (method url : pystr) (auth : pyobj) (kwargs : kwargs_t)
    (st : State) :
  let st' := snd (request method url auth kwargs st) in
  log st' = log st
  \/ exists h cs ba,
       _session st' = Some h
       /\ nth_error (heap st') h = Some cs /\ closed cs = false
       /\ log st' = log st ++ [mkCall h method url ba false kwargs].
Proof.
  pose proof (request_frame method url auth kwargs st) as [Fh Fs].
  revert Fh Fs. rewrite request_unfold. cbv zeta.
  pose proof (ensure_session_log st) as L.
  destruct (basic_auth_of auth) as [e | ba]; [cbn [snd]; auto |].
  pose proof (ClientSession_request_log method url ba false kwargs
                (snd (_ensure_session st))) as F. cbv zeta in F.
  rewrite L in F.
  assert (G : forall st2,
             log st2 = log st
             \/ (exists h cs,
                   _session (snd (_ensure_session st)) = Some h
                   /\ nth_error (heap (snd (_ensure_session st))) h = Some cs
                   /\ closed cs = false
                   /\ log st2 = log st ++ [mkCall h method url ba false kwargs]) ->
             heap st2 = heap (snd (_ensure_session st)) ->
             _session st2 = _session (snd (_ensure_session st)) ->
             log st2 = log st
             \/ exists h cs ba,
                  _session st2 = Some h
                  /\ nth_error (heap st2) h = Some cs /\ closed cs = false
                  /\ log st2 = log st ++ [mkCall h method url ba false kwargs]).
  { intros st2 [H | (h & cs & Hs & Hn & Hc & H)] Hh Hse; [left; exact H |].
    right. exists h, cs, ba. rewrite Hh, Hse. auto. }
  destruct (ClientSession_request method url ba false kwargs _)
    as [[e | r] st2]; cbn [snd] in *; [exact (G st2 F) |].
  destruct (content_read r); cbn [snd]; exact (G st2 F).
Qed.

Lemma call_request_log (method url : pystr) (kwargs : kwargs_t) (st : State) :
  let st' := snd (call_request method url kwargs st) in
  log st' = log st
  \/ exists h cs ba kw,
       _session st' = Some h
       /\ nth_error (heap st') h = Some cs /\ closed cs = false
       /\ log st' = log st ++ [mkCall h method url ba false kw].
Proof.
  unfold call_request, raise.
  destruct (has_key "self" kwargs); [left; reflexivity |].
  destruct (has_key "method" kwargs); [left; reflexivity |].
  destruct (has_key "url" kwargs); [left; reflexivity |].
  destruct (request_log method url
              (match lookup "auth" kwargs with Some a => a | None => PyNone end)
              (remove "auth" kwargs) st) as [H | (h & cs & ba & H)].
  - left. exact H.
  - right. exists h, cs, ba, (remove "auth" kwargs). exact H.
Qed.

(** What one call of the manager does to the log: nothing, or one call
    added at the end, made with [ssl=False] on a session of the store. *)
Lemma step_log (o : op) (st : State) :
  log (step o st) = log st
  \/ exists c,
       log (step o st) = log st ++ [c]
       /\ call_ssl c = false
       /\ (call_session c < List.length (heap (step o st)))%nat.
Proof.
  assert (B : forall (hp : list ClientSession) h cs,
             nth_error hp h = Some cs -> (h < List.length hp)%nat).
  { intros hp h cs H. apply nth_error_Some. rewrite H. discriminate. }
  destruct o; cbn [step].
  - left. apply ensure_session_log.
  - left. unfold close. destruct (_session st); reflexivity.
  - destruct (request_log method url auth kwargs st)
      as [H | (h & cs & ba & _ & Hn & _ & H)]; [left; exact H |].
    right. eexists. split; [exact H |]. split; [reflexivity |].
    exact (B _ _ _ Hn).
  - destruct (call_request_log (Py.u "GET") url kwargs st)
      as [H | (h & cs & ba & kw & _ & Hn & _ & H)]; [left; exact H |].
    right. eexists. split; [exact H |]. split; [reflexivity |].
    exact (B _ _ _ Hn).
  - destruct (call_request_log (Py.u "POST") url kwargs st)
      as [H | (h & cs & ba & kw & _ & Hn & _ & H)]; [left; exact H |].
    right. eexists. split; [exact H |]. split; [reflexivity |].
    exact (B _ _ _ Hn).
Qed.

Lemma run_app (ops ops' : list op) (st : State) :
  run (ops ++ ops') st = run ops' (run ops st).
Proof. unfold run. apply fold_left_app. Qed.

Lemma run_snoc (ops : list op) (o : op) (st : State) :
  run (ops ++ [o]) st = step o (run ops st).
Proof. rewrite run_app. reflexivity. Qed.

(** X11: every call that reaches the transport is made with [ssl=False]. *)
Theorem calls_never_verify_ssl (ops : list op) :
  Forall (fun c => call_ssl c = false) (log (run ops init)).
Proof.
  induction ops as [| o ops IH] using rev_ind; [constructor |].
  rewrite run_snoc.
  destruct (step_log o (run ops init)) as [-> | (c & -> & Hc & _)]; [exact IH |].
  apply Forall_app. split; [exact IH |]. constructor; [exact Hc | constructor].
Qed.

(** X12: the log only grows, by at most one call for each call of the manager. *)
Theorem log_append_only (ops : list op) (st : State) :
  exists calls,
    log (run ops st) = log st ++ calls
    /\ (List.length calls <= List.length ops)%nat.
Proof.
  induction ops as [| o ops IH] using rev_ind.
  - exists []. split; [symmetry; apply app_nil_r | cbn; lia].
  - destruct IH as (calls & E & L). rewrite run_snoc, length_app. cbn.
    destruct (step_log o (run ops st)) as [H | (c & H & _)]; rewrite H, E.
    + exists calls. split; [reflexivity | lia].
    + exists (calls ++ [c]). split; [symmetry; apply app_assoc |].
      rewrite length_app. cbn. lia.
Qed.


(** *** The store *)

Lemma set_closed_length (h : nat) (hp : list ClientSession) :
  List.length (set_closed h hp) = List.length hp.
Proof.
  destruct (nth_error hp h) as [cs |] eqn:E.
  - destruct (set_closed_split h hp cs E) as (l1 & l2 & -> & ->).
    rewrite !length_app. reflexivity.
  - unfold set_closed. rewrite E. reflexivity.
Qed.

Lemma set_closed_timeout (h : nat) (hp : list ClientSession) :
  Forall (fun cs => timeout cs = mkClientTimeout 5) hp ->
  Forall (fun cs => timeout cs = mkClientTimeout 5) (set_closed h hp).
Proof.
  intros F. destruct (nth_error hp h) as [cs |] eqn:E.
  - destruct (set_closed_split h hp cs E) as (l1 & l2 & -> & ->).
    apply Forall_app in F. destruct F as [F1 F2].
    apply Forall_app. split; [exact F1 |].
    inversion F2 as [| x l Hx Hl]; subst.
    constructor; [exact Hx | exact Hl].
  - unfold set_closed. rewrite E. exact F.
Qed.

(** What one call of the manager does to the store: nothing, one session
    created with the total timeout 5, or one session closed in place. *)
Lemma step_heap (o : op) (st : State) :
  heap (step o st) = heap st
  \/ heap (step o st) = heap st ++ [mkClientSession (mkClientTimeout 5) false]
  \/ exists h, heap (step o st) = set_closed h (heap st).
Proof.
  assert (E : heap (snd (_ensure_session st)) = heap st
              \/ heap (snd (_ensure_session st))
                 = heap st ++ [mkClientSession (mkClientTimeout 5) false]).
  { rewrite ensure_session_cases. cbn [snd].
    destruct (_session st); [left | right]; reflexivity. }
  assert (C : forall method url kwargs,
             heap (snd (call_request method url kwargs st)) = heap st
             \/ heap (snd (call_request method url kwargs st))
                = heap st ++ [mkClientSession (mkClientTimeout 5) false]).
  { intros method url kwargs.
    destruct (call_request_frame method url kwargs st) as [-> | [-> _]];
      [left; reflexivity | exact E]. }
  destruct o; cbn [step].
  - destruct E as [E | E]; auto.
  - unfold close. destruct (_session st) as [h |]; cbn [snd heap]; eauto.
  - destruct (request_frame method url auth kwargs st) as [-> _].
    destruct E as [E | E]; auto.
  - destruct (C (Py.u "GET") url kwargs) as [H | H]; auto.
  - destruct (C (Py.u "POST") url kwargs) as [H | H]; auto.
Qed.

(** X13: every session of the store was created with the total timeout 5,
    and every call was made on a session of the store. *)
Theorem sessions_have_timeout_5 (ops : list op) :
  Forall (fun cs => timeout cs = mkClientTimeout 5) (heap (run ops init))
  /\ Forall (fun c => (call_session c < List.length (heap (run ops init)))%nat)
            (log (run ops init)).
Proof.
  induction ops as [| o ops [IH1 IH2]] using rev_ind;
    [split; constructor |].
  rewrite run_snoc. set (st := run ops init) in *.
  assert (L : (List.length (heap st) <= List.length (heap (step o st)))%nat).
  { destruct (step_heap o st) as [-> | [-> | [h ->]]].
    - lia.
    - rewrite length_app. cbn. lia.
    - rewrite set_closed_length. lia. }
  split.
  - destruct (step_heap o st) as [-> | [-> | [h ->]]].
    + exact IH1.
    + apply Forall_app. split; [exact IH1 |].
      constructor; [reflexivity | constructor].
    + apply set_closed_timeout. exact IH1.
  - assert (Old : Forall (fun c => (call_session c
                                     < List.length (heap (step o st)))%nat)
                         (log st)).
    { eapply Forall_impl; [| exact IH2]. cbn. intros c Hc. lia. }
    destruct (step_log o st) as [-> | (c & -> & _ & Hc)]; [exact Old |].
    apply Forall_app. split; [exact Old |].
    constructor; [exact Hc | constructor].
Qed.


(** *** Keyword options *)

Lemma has_key_remove_same (k : string) (kw : kwargs_t) :
  has_key k (remove k kw) = false.
Proof.
  unfold has_key, remove. induction kw as [| [k' v] kw IH]; [reflexivity |].
  cbn [filter fst]. destruct (String.eqb k' k) eqn:E; cbn [negb]; [exact IH |].
  cbn [existsb fst]. rewrite E. exact IH.
Qed.

Lemma has_key_remove_other (k k' : string) (kw : kwargs_t) :
  String.eqb k k' = false ->
  has_key k (remove k' kw) = has_key k kw.
Proof.
  intros D. unfold has_key, remove.
  induction kw as [| [k0 v] kw IH]; [reflexivity |].
  cbn [filter fst existsb]. destruct (String.eqb k0 k') eqn:E; cbn [negb].
  - rewrite IH. apply String.eqb_eq in E. subst k0.
    rewrite String.eqb_sym, D. reflexivity.
  - cbn [existsb fst]. rewrite IH. reflexivity.
Qed.

Lemma lookup_has_key (k : string) (kw : kwargs_t) :
  has_key k kw = false -> lookup k kw = None /\ remove k kw = kw.
Proof.
  unfold has_key, remove. induction kw as [| [k' v] kw IH]; [auto |].
  cbn [existsb fst lookup filter]. intros H.
  apply orb_false_iff in H. destruct H as [H1 H2]. rewrite H1. cbn [negb].
  destruct (IH H2) as [-> ->]. auto.
Qed.

(** X14: a second [_ensure_session] in a row does nothing. *)
Theorem ensure_session_idempotent (st : State) :
  _ensure_session (snd (_ensure_session st))
  = (Ok tt, snd (_ensure_session st)).
Proof.
  rewrite (ensure_session_cases (snd (_ensure_session st))).
  destruct (ensure_session_has st) as [h ->]. reflexivity.
Qed.

(** X15: after any sequence of calls, [close] leaves no session of the store
    open and no session with the manager. *)
Theorem close_leaves_no_open_session (ops : list op) :
  live (heap (snd (close (run ops init)))) = O
  /\ _session (snd (close (run ops init))) = None.
Proof.
  pose proof (consistent_close _ (consistent_run ops init consistent_init)) as C.
  assert (N : _session (snd (close (run ops init))) = None).
  { unfold close. destruct (_session (run ops init)) eqn:E; cbn [snd];
      [reflexivity | exact E]. }
  split; [| exact N]. unfold consistent in C. rewrite N in C. exact C.
Qed.

(** X16: when the manager holds a session, [request] creates none: the store
    and the handle are as before. *)
Theorem request_reuses_session (method url : pystr) (auth : pyobj)
    (kwargs : kwargs_t) (st : State) (h : nat) :
  _session st = Some h ->
  heap (snd (request method url auth kwargs st)) = heap st
  /\ _session (snd (request method url auth kwargs st)) = Some h.
Proof.
  intros H. destruct (request_frame method url auth kwargs st) as [-> ->].
  rewrite ensure_session_cases, H. cbn [snd]. auto.
Qed.

(** The sessions created so far, counting the one still to create. *)
Lemma step_sessions (o : op) (st : State) :
  (List.length (heap (step o st)) + pending (step o st)
   <= List.length (heap st) + pending st + closes [o])%nat.
Proof.
  assert (E : (List.length (heap (snd (_ensure_session st)))
               + pending (snd (_ensure_session st))
               = List.length (heap st) + pending st)%nat).
  { rewrite ensure_session_cases. cbn [snd]. unfold pending.
    destruct (_session st) eqn:S; [rewrite S; reflexivity |].
    cbn [heap _session]. rewrite length_app. cbn. lia. }
  assert (F : forall st',
             heap st' = heap (snd (_ensure_session st)) ->
             _session st' = _session (snd (_ensure_session st)) ->
             (List.length (heap st') + pending st'
              = List.length (heap st) + pending st)%nat).
  { intros st' Hh Hs. rewrite <- E. unfold pending. rewrite Hh, Hs.
    reflexivity. }
  assert (C : forall method url kwargs,
             (List.length (heap (snd (call_request method url kwargs st)))
              + pending (snd (call_request method url kwargs st))
              = List.length (heap st) + pending st)%nat).
  { intros method url kwargs.
    destruct (call_request_frame method url kwargs st) as [-> | [Hh Hs]];
      [reflexivity | exact (F _ Hh Hs)]. }
  destruct o; cbn [step closes].
  - lia.
  - unfold close, pending.
    destruct (_session st) eqn:S; cbn [snd heap _session].
    + rewrite set_closed_length. lia.
    + rewrite S. lia.
  - destruct (request_frame method url auth kwargs st) as [Hh Hs].
    rewrite (F _ Hh Hs). lia.
  - unfold get. rewrite C. lia.
  - unfold post. rewrite C. lia.
Qed.

Lemma closes_app (ops ops' : list op) :
  closes (ops ++ ops') = (closes ops + closes ops')%nat.
Proof.
  induction ops as [| o ops IH]; [reflexivity |].
  destruct o; cbn [app closes]; rewrite IH; reflexivity.
Qed.

(** X17: the manager creates at most one session more than it was closed. *)
Theorem sessions_created_bound (ops : list op) :
  (List.length (heap (run ops init)) <= S (closes ops))%nat.
Proof.
  assert (P : (List.length (heap (run ops init))
               + pending (run ops init)
               <= 1 + closes ops)%nat).
  { induction ops as [| o ops IH] using rev_ind; [cbn; lia |].
    rewrite run_snoc, closes_app.
    pose proof (step_sessions o (run ops init)). lia. }
  lia.
Qed.

(** X18: an [auth] that cannot be indexed twice fails [request] with the
    error of the indexing, after the session has been ensured and before
    any call. *)
Theorem request_failing_auth (method url : pystr) (auth : pyobj)
    (kwargs : kwargs_t) (st : State) (e : exn) :
  basic_auth_of auth = Raise e ->
  request method url auth kwargs st = (Raise e, snd (_ensure_session st))
  /\ log (snd (request method url auth kwargs st)) = log st.
Proof.
  intros H. change (basic_auth_of auth = inl e) in H.
  assert (E : request method url auth kwargs st
              = (Raise e, snd (_ensure_session st)))
    by (rewrite request_unfold; cbv zeta; rewrite H; reflexivity).
  split; [exact E |]. rewrite E. cbn [snd]. apply ensure_session_log.
Qed.

(** X19: a keyword option named ssl collides with the [ssl=False] of
    [request]: the call fails with a type error and nothing reaches the
    transport. *)
Theorem ssl_keyword_collides (method url : pystr) (kwargs : kwargs_t)
    (st : State) (basic_auth : option BasicAuth) :
  has_key "self" kwargs = false ->
  has_key "method" kwargs = false ->
  has_key "url" kwargs = false ->
  has_key "ssl" kwargs = true ->
  basic_auth_of (match lookup "auth" kwargs with
                 | Some a => a
                 | None => PyNone
                 end) = Ok basic_auth ->
  call_request method url kwargs st
  = (Raise (multiple_values "'ssl'"), snd (_ensure_session st))
  /\ log (snd (call_request method url kwargs st)) = log st.
Proof.
  intros K1 K2 K3 Ks Hba. unfold Ok in Hba.
  assert (E : call_request method url kwargs st
              = (Raise (multiple_values "'ssl'"), snd (_ensure_session st))).
  { unfold call_request. rewrite K1, K2, K3, request_unfold. cbv zeta.
    rewrite Hba. unfold ClientSession_request.
    destruct (ensure_session_has st) as [h ->].
    rewrite has_key_remove_same, has_key_remove_other, Ks by reflexivity.
    reflexivity. }
  split; [exact E |]. rewrite E. cbn [snd]. apply ensure_session_log.
Qed.

(** X20: a keyword option named self, method or url collides with a
    parameter of [request]: [get] and [post] fail with a type error and
    leave the manager as it was, without a session if it had none. *)
Theorem reserved_keyword_collides (url : pystr) (kwargs : kwargs_t)
    (st : State) :
  has_key "self" kwargs || has_key "method" kwargs || has_key "url" kwargs
  = true ->
  (is_type_error (fst (get url kwargs st)) = true
   /\ snd (get url kwargs st) = st)
  /\ (is_type_error (fst (post url kwargs st)) = true
      /\ snd (post url kwargs st) = st).
Proof.
  intros H. unfold get, post, call_request, raise.
  destruct (has_key "self" kwargs); [repeat split |].
  destruct (has_key "method" kwargs); [repeat split |].
  destruct (has_key "url" kwargs); [repeat split | discriminate H].
Qed.

(** X21: with no keyword option named self, method, url or auth, [get] and
    [post] are [request] without authentication and with the same
    options. *)
Theorem get_post_without_auth (url : pystr) (kwargs : kwargs_t) (st : State) :
  has_key "self" kwargs = false ->
  has_key "method" kwargs = false ->
  has_key "url" kwargs = false ->
  has_key "auth" kwargs = false ->
  get url kwargs st = request (Py.u "GET") url PyNone kwargs st
  /\ post url kwargs st = request (Py.u "POST") url PyNone kwargs st.
Proof.
  intros K1 K2 K3 Ka. unfold get, post, call_request.
  rewrite K1, K2, K3. destruct (lookup_has_key "auth" kwargs Ka) as [-> ->].
  split; reflexivity.
Qed.

(** X22: [get] makes at most one call, a GET of the given URL, and [post] at
    most one, a POST of it. *)
Theorem get_post_calls (url : pystr) (kwargs : kwargs_t) (st : State) :
  (log (snd (get url kwargs st)) = log st
   \/ exists h ba kw,
        log (snd (get url kwargs st))
        = log st ++ [mkCall h (Py.u "GET") url ba false kw])
  /\ (log (snd (post url kwargs st)) = log st
      \/ exists h ba kw,
           log (snd (post url kwargs st))
           = log st ++ [mkCall h (Py.u "POST") url ba false kw]).
Proof.
  split.
  - destruct (call_request_log (Py.u "GET") url kwargs st)
      as [H | (h & cs & ba & kw & _ & _ & _ & H)]; [left; exact H |].
    right. exists h, ba, kw. exact H.
  - destruct (call_request_log (Py.u "POST") url kwargs st)
      as [H | (h & cs & ba & kw & _ & _ & _ & H)]; [left; exact H |].
    right. exists h, ba, kw. exact H.
Qed.

(** *** [__del__] *)

(** X23: [__del__] never raises. *)
Theorem del_never_raises (running : option Loop) (st : State) :
  fst (__del__ running st) = Ok tt.
Proof.
  unfold __del__. destruct (_session st); [| reflexivity].
  destruct running as [loop |]; cbn; [| reflexivity].
  unfold call_soon_threadsafe. destruct (loop_closed loop); reflexivity.
Qed.


End HttpFacts.

(** X25: whatever the loader, it receives a document that begins with the
    XML declaration prefix: the content itself, or the content behind the
    fixed header. *)
Theorem decode_plist_always_xml (data : bytes) :
  exists doc,
    (doc = data \/ doc = plist_header ++ data)
    /\ Py.bytes_startswith doc (Py.b "<?xml") = true
    /\ forall loader, decode_plist loader data = loads_plist loader doc.
Proof.
  destruct (Py.bytes_startswith data (Py.b "<?xml")) eqn:E.
  - exists data. split; [left; reflexivity |]. split; [exact E |].
    intros loader. unfold decode_plist. rewrite E. reflexivity.
  - exists (plist_header ++ data). split; [right; reflexivity |].
    split; [reflexivity |].
    intros loader. unfold decode_plist. rewrite E. reflexivity.
Qed.

(** ** Closed instances, with the core plist reader and a fixed transport *)


Lemma plist_type_error_witness :
  decode_plist PlistCore.loads plist_fragment_array
  = Ok (PyList [PyBool true; PyStr (Py.u "x")])
  /\ plist PlistCore.loads (mkHttpResponse 200 plist_fragment_array)
     = Raise (TypeError "Unknown Plist-encoded data type: {data}. This is a bug, please report it."
                        (Some (PyList [PyBool true; PyStr (Py.u "x")])))
  /\ plist PlistCore.loads (mkHttpResponse 200 plist_fragment_dict)
     = Ok (PyDict [(Py.u "a", PyInt 1)])
  /\ plist PlistCore.loads (mkHttpResponse 200 plist_fragment_date)
     = Raise (TypeError "function missing required argument 'month' (pos 2)"
                        None).
Proof.
  assert (A : decode_plist PlistCore.loads plist_fragment_array
              = Ok (PyList [PyBool true; PyStr (Py.u "x")]))
    by (vm_compute; reflexivity).
  split; [exact A |]. split.
  - apply (proj1 (plist_type_error PlistCore.loads
                    (mkHttpResponse 200 plist_fragment_array))).
    + exact A.
    + reflexivity.
  - split.
    + apply (proj1 (proj2 (plist_type_error PlistCore.loads
                             (mkHttpResponse 200 plist_fragment_dict)))).
      * vm_compute. reflexivity.
      * reflexivity.
    + apply (proj1 (proj2 (proj2 (plist_type_error PlistCore.loads
                                    (mkHttpResponse 200 plist_fragment_date))))).
      vm_compute. reflexivity.
Defined.

(** On a date that stops after the year the loader itself raises a type
    error: [plist] raises a type error and no value was decoded, mapping or
    not. *)
Lemma plist_type_error_counterexample :
  is_type_error (plist PlistCore.loads
                   (mkHttpResponse 200 plist_fragment_date)) = true
  /\ ~ (exists v,
          decode_plist PlistCore.loads plist_fragment_date = Ok v
          /\ Py.is_dict v = false).
Proof.
  split; [vm_compute; reflexivity |].
  intros (v & H & _). vm_compute in H. discriminate H.
Qed.

Lemma response_noninterference_witness :
  (text (mkHttpResponse 200 json_object_a1)
   = text (mkHttpResponse 404 json_object_a1)
   /\ json (mkHttpResponse 200 json_object_a1)
      = json (mkHttpResponse 404 json_object_a1)
   /\ plist PlistCore.loads (mkHttpResponse 200 json_object_a1)
      = plist PlistCore.loads (mkHttpResponse 404 json_object_a1))
  /\ (status_code (mkHttpResponse 204 json_object_a1)
      = status_code (mkHttpResponse 204 plist_fragment_dict)
      /\ ok (mkHttpResponse 204 json_object_a1)
         = ok (mkHttpResponse 204 plist_fragment_dict)).
Proof.
  split.
  - apply (proj1 (response_noninterference PlistCore.loads
                    (mkHttpResponse 200 json_object_a1)
                    (mkHttpResponse 404 json_object_a1))).
    reflexivity.
  - apply (proj2 (response_noninterference PlistCore.loads
                    (mkHttpResponse 204 json_object_a1)
                    (mkHttpResponse 204 plist_fragment_dict))).
    reflexivity.
Defined.

Lemma session_state_machine_witness :
  state_of init = NoSession /\ close init = (Ok tt, init).
Proof.
  split; [reflexivity |].
  apply (proj1 (proj2 (proj2 (proj2 (proj2 (session_state_machine network_200)))))).
  reflexivity.
Defined.

Lemma request_contract_witness :
  consistent init
  /\ basic_auth_of (PyTuple [PyStr (Py.u "user"); PyStr (Py.u "secret")])
     = Ok (Some (mkBasicAuth (PyStr (Py.u "user")) (PyStr (Py.u "secret"))
                             (Py.u "latin1")))
  /\ exists h,
      _session (snd (_ensure_session init)) = Some h
      /\ request network_200 (Py.u "GET") (Py.u "https://example.com")
           (PyTuple [PyStr (Py.u "user"); PyStr (Py.u "secret")]) [] init
         = (Ok (mkHttpResponse 200 json_object_a1),
            mkState [mkClientSession (mkClientTimeout 5) false]
                    [mkCall h (Py.u "GET") (Py.u "https://example.com")
                       (Some (mkBasicAuth (PyStr (Py.u "user"))
                                          (PyStr (Py.u "secret"))
                                          (Py.u "latin1")))
                       false []]
                    (Some h)).
Proof.
  split; [reflexivity |]. split.
  - apply (proj1 (proj2 (proj2 (request_contract network_200)))).
    reflexivity.
  - apply (proj1 (proj2 (proj2 (proj2 (proj2 (proj2 (proj2 (proj2
             (request_contract network_200))))))))
             init (Py.u "GET") (Py.u "https://example.com")
             (PyTuple [PyStr (Py.u "user"); PyStr (Py.u "secret")]) []
             (Some (mkBasicAuth (PyStr (Py.u "user")) (PyStr (Py.u "secret"))
                                (Py.u "latin1")))).
    + reflexivity.
    + reflexivity.
    + reflexivity.
    + reflexivity.
Defined.

(** A pair whose username holds a colon is not translated: [BasicAuth]
    raises, [request] raises with it, and no call is made. *)
Lemma request_contract_counterexample :
  basic_auth_of (PyTuple [PyStr (Py.u "us:er"); PyStr (Py.u "pw")])
  = Raise (ValueError "A colon is not allowed in login (RFC 1945#section-11.1)")
  /\ request network_200 (Py.u "GET") (Py.u "https://example.com")
       (PyTuple [PyStr (Py.u "us:er"); PyStr (Py.u "pw")]) [] init
     = (Raise (ValueError "A colon is not allowed in login (RFC 1945#section-11.1)"),
        snd (_ensure_session init))
  /\ log (snd (request network_200 (Py.u "GET") (Py.u "https://example.com")
                 (PyTuple [PyStr (Py.u "us:er"); PyStr (Py.u "pw")]) [] init))
     = [].
Proof. repeat split; vm_compute; reflexivity. Qed.

Lemma get_post_alias_witness :
  (get network_200 (Py.u "https://example.com")
     [("headers"%string, PyDict [])] init
   = request network_200 (Py.u "GET") (Py.u "https://example.com") PyNone
       [("headers"%string, PyDict [])] init
   /\ post network_200 (Py.u "https://example.com")
        [("headers"%string, PyDict [])] init
      = request network_200 (Py.u "POST") (Py.u "https://example.com") PyNone
          [("headers"%string, PyDict [])] init)
  /\ (get network_200 (Py.u "https://example.com")
        [("auth"%string, PyTuple [PyStr (Py.u "user"); PyStr (Py.u "secret")]);
         ("headers"%string, PyDict [])] init
      = request network_200 (Py.u "GET") (Py.u "https://example.com")
          (PyTuple [PyStr (Py.u "user"); PyStr (Py.u "secret")])
          [("headers"%string, PyDict [])] init
      /\ post network_200 (Py.u "https://example.com")
           [("auth"%string, PyTuple [PyStr (Py.u "user"); PyStr (Py.u "secret")]);
            ("headers"%string, PyDict [])] init
         = request network_200 (Py.u "POST") (Py.u "https://example.com")
             (PyTuple [PyStr (Py.u "user"); PyStr (Py.u "secret")])
             [("headers"%string, PyDict [])] init).
Proof.
  destruct (get_post_alias network_200 (Py.u "https://example.com")
              [("headers"%string, PyDict [])] init
              eq_refl eq_refl eq_refl) as [_ A].
  destruct (A eq_refl) as [N P].
  split; [exact N |].
  exact (P (PyTuple [PyStr (Py.u "user"); PyStr (Py.u "secret")])).
Defined.

(** ** Closed instances of the further properties *)

Lemma text_ascii_witness :
  text (mkHttpResponse 200 (Py.b "ok")) = Ok (Py.u "ok").
Proof.
  apply (text_ascii (mkHttpResponse 200 (Py.b "ok"))). reflexivity.
Defined.

Lemma text_injective_witness :
  text (mkHttpResponse 200 [xc3; xa9]) = Ok [233%N]
  /\ text (mkHttpResponse 404 [xc3; xa9]) = Ok [233%N]
  /\ _content (mkHttpResponse 200 [xc3; xa9])
     = _content (mkHttpResponse 404 [xc3; xa9]).
Proof.
  split; [reflexivity |]. split; [reflexivity |].
  apply (text_injective (mkHttpResponse 200 [xc3; xa9])
           (mkHttpResponse 404 [xc3; xa9]) [233%N]); reflexivity.
Defined.

Lemma text_scalar_values_witness :
  text (mkHttpResponse 200 [x68; xc3; xa9]) = Ok [104%N; 233%N]
  /\ forallb Utf8.scalar [104%N; 233%N] = true
  /\ (List.length [104%N; 233%N]
      <= List.length (_content (mkHttpResponse 200 [x68; xc3; xa9]))
      <= 4 * List.length [104%N; 233%N])%nat.
Proof.
  split; [reflexivity |].
  apply (text_scalar_values (mkHttpResponse 200 [x68; xc3; xa9])).
  reflexivity.
Defined.

Lemma json_returns_dict_witness :
  json (mkHttpResponse 200 json_object_a1) = Ok (PyDict [(Py.u "a", PyInt 1)])
  /\ Py.is_dict (PyDict [(Py.u "a", PyInt 1)])
     = match Json.skip_ws (Py.u "{") with
       | c :: _ => (c =? Json.ch "{")%N
       | [] => false
       end.
Proof.
  assert (J : json (mkHttpResponse 200 json_object_a1)
              = Ok (PyDict [(Py.u "a", PyInt 1)]))
    by (vm_compute; reflexivity).
  split; [exact J |].
  assert (T : text (mkHttpResponse 200 json_object_a1)
              = Ok [123%N; 34%N; 97%N; 34%N; 58%N; 49%N; 125%N])
    by (vm_compute; reflexivity).
  exact (json_returns_dict (mkHttpResponse 200 json_object_a1) _ _ T J).
Defined.

Lemma json_blank_content_witness :
  json (mkHttpResponse 200 []) = Raise (JSONDecodeError "Expecting value")
  /\ json (mkHttpResponse 200 [x20; x0a])
     = Raise (JSONDecodeError "Expecting value").
Proof.
  split.
  - apply (json_blank_content (mkHttpResponse 200 [])). reflexivity.
  - apply (json_blank_content (mkHttpResponse 200 [x20; x0a])). reflexivity.
Defined.

Lemma json_byte_order_mark_witness :
  json (mkHttpResponse 200 (xef :: xbb :: xbf :: json_object_a1))
  = Raise (JSONDecodeError "Unexpected UTF-8 BOM (decode using utf-8-sig)").
Proof.
  apply (json_byte_order_mark 200 json_object_a1
           [123%N; 34%N; 97%N; 34%N; 58%N; 49%N; 125%N]).
  vm_compute. reflexivity.
Defined.

Lemma plist_returns_dict_witness :
  plist PlistCore.loads (mkHttpResponse 200 plist_fragment_dict)
  = Ok (PyDict [(Py.u "a", PyInt 1)])
  /\ Py.is_dict (PyDict [(Py.u "a", PyInt 1)]) = true
  /\ decode_plist PlistCore.loads
       (_content (mkHttpResponse 200 plist_fragment_dict))
     = Ok (PyDict [(Py.u "a", PyInt 1)]).
Proof.
  assert (P : plist PlistCore.loads (mkHttpResponse 200 plist_fragment_dict)
              = Ok (PyDict [(Py.u "a", PyInt 1)]))
    by (vm_compute; reflexivity).
  split; [exact P |].
  exact (plist_returns_dict PlistCore.loads _ _ P).
Defined.

Lemma request_reuses_session_witness :
  _session (snd (_ensure_session init)) = Some O
  /\ heap (snd (request network_200 (Py.u "GET") (Py.u "https://example.com")
                  PyNone [] (snd (_ensure_session init))))
     = heap (snd (_ensure_session init))
  /\ _session (snd (request network_200 (Py.u "GET")
                      (Py.u "https://example.com") PyNone []
                      (snd (_ensure_session init))))
     = Some O.
Proof.
  split; [reflexivity |].
  apply (request_reuses_session network_200 (Py.u "GET")
           (Py.u "https://example.com") PyNone []
           (snd (_ensure_session init)) O).
  reflexivity.
Defined.

Lemma request_failing_auth_witness :
  basic_auth_of (PyInt 7)
  = Raise (TypeError "object is not subscriptable" None)
  /\ request network_200 (Py.u "GET") (Py.u "https://example.com")
       (PyInt 7) [] init
     = (Raise (TypeError "object is not subscriptable" None),
        snd (_ensure_session init))
  /\ log (snd (request network_200 (Py.u "GET") (Py.u "https://example.com")
                 (PyInt 7) [] init))
     = log init.
Proof.
  split; [reflexivity |].
  apply (request_failing_auth network_200 (Py.u "GET")
           (Py.u "https://example.com") (PyInt 7) [] init).
  reflexivity.
Defined.

Lemma ssl_keyword_collides_witness :
  call_request network_200 (Py.u "GET") (Py.u "https://example.com")
    [("ssl"%string, PyBool true)] init
  = (Raise (multiple_values "'ssl'"), snd (_ensure_session init))
  /\ log (snd (call_request network_200 (Py.u "GET")
                 (Py.u "https://example.com") [("ssl"%string, PyBool true)] init))
     = log init.
Proof.
  apply (ssl_keyword_collides network_200 (Py.u "GET")
           (Py.u "https://example.com") [("ssl"%string, PyBool true)] init None);
    reflexivity.
Defined.

Lemma reserved_keyword_collides_witness :
  (is_type_error
     (fst (get network_200 (Py.u "https://example.com")
             [("method"%string, PyStr (Py.u "PUT"))] init)) = true
   /\ snd (get network_200 (Py.u "https://example.com")
             [("method"%string, PyStr (Py.u "PUT"))] init) = init)
  /\ (is_type_error
        (fst (post network_200 (Py.u "https://example.com")
                [("method"%string, PyStr (Py.u "PUT"))] init)) = true
      /\ snd (post network_200 (Py.u "https://example.com")
                [("method"%string, PyStr (Py.u "PUT"))] init) = init).
Proof.
  apply (reserved_keyword_collides network_200 (Py.u "https://example.com")
           [("method"%string, PyStr (Py.u "PUT"))] init).
  reflexivity.
Defined.

Lemma get_post_without_auth_witness :
  get network_200 (Py.u "https://example.com")
    [("headers"%string, PyDict [])] init
  = request network_200 (Py.u "GET") (Py.u "https://example.com") PyNone
      [("headers"%string, PyDict [])] init
  /\ post network_200 (Py.u "https://example.com")
       [("headers"%string, PyDict [])] init
     = request network_200 (Py.u "POST") (Py.u "https://example.com") PyNone
         [("headers"%string, PyDict [])] init.
Proof.
  apply (get_post_without_auth network_200 (Py.u "https://example.com")
           [("headers"%string, PyDict [])] init); reflexivity.
Defined.
